(** * openai-discord-chatbot: the per-user session logic of [chatbot.py]

    A shallow embedding of [on_message], [chat_with_openai] and
    [cooldown_user] together with the module-level dictionaries they
    share, followed by the properties of the session logic.

    Conventions of the embedding.
    - Identifiers (users, channels) are integers.
    - One clock, counted in microseconds since [datetime.min], stands for
      both [datetime.utcnow()] and the event loop's timer clock; a
      [timedelta] is a number of microseconds.
    - The dictionaries are finite maps.  Reading [d[k]] from a
      [defaultdict] inserts the default under a missing key, and the
      embedding does the same ([defaultdict_get]).
    - The collaborators (OpenAI, the file system, the clock) are inputs,
      gathered in a [World]; what the handler asks of Discord and OpenAI
      is recorded in a trace of [Event]s.  Discord refuses a message of
      more than 2000 characters, the limit that [split_message] is there
      for: [channel.send] raises on such a text and is taken to succeed
      on any other; logging and the [channel.typing()] context manager
      leave no mark in the trace. *)

From stdpp Require Import base gmap strings list.
From Stdlib Require Import ZArith Lia.

Local Open Scope string_scope.
Local Open Scope list_scope.
Local Open Scope Z_scope.

(** ** Configuration *)

(** The fields of [Settings] that the session logic reads. *)
Record Settings := {
  max_cache : Z;
  cooldown_time : Z;
  openai_model : string;
  system_message_file : string;
}.

Definition default_settings : Settings :=
  {| max_cache := 5;
     cooldown_time := 2;
     openai_model := "gpt-3.5-turbo-16k";
     system_message_file := "./system_message.txt" |}.

(** [Settings.system_message]: a property, so each access opens and
    reads the file again; [None] stands for the [OSError] of [open]. *)
Definition system_message (settings : Settings) (fs : gmap string string)
  : option string :=
  fs !! system_message_file settings.

(** ** Data *)

Definition seconds (n : Z) : Z := n * 1000000.

(** The values of [user_last_interaction]. *)
Record Interaction := {
  time : Z;
  channel : option Z;
}.

(** [{"time": datetime.min, "channel": None}] *)
Definition never_interacted : Interaction :=
  {| time := 0; channel := None |}.

(** One element of the [messages] list given to the completion call. *)
Record ChatMessage := {
  role : string;
  msg_content : string;
}.

(** What the handler reads of a [discord.Message].  [reference] is
    [None] when [message.reference] is [None]; [Some None] when there is
    a reference whose [resolved] carries no author ([None], or a
    [DeletedReferencedMessage]); [Some (Some a)] when it resolved to a
    message written by [a]. *)
Record Message := {
  author_id : Z;
  author_bot : bool;
  channel_id : Z;
  content : string;
  mentions_bot : bool;
  reference : option (option Z);
}.

(** The module-level state.  [sleeping] holds the [cooldown_user] tasks
    suspended in [asyncio.sleep], each as (wake-up time, user id).
    [SYSTEM_MESSAGE] is the text read at import time.  The dictionaries
    [user_last_channel] and [user_last_interaction_time] are never read
    or written and are left out. *)
Record State := {
  user_message_cache : gmap Z (list (string * string));
  user_cooldown : gmap Z Z;
  user_last_interaction : gmap Z Interaction;
  sleeping : list (Z * Z);
  SYSTEM_MESSAGE : string;
}.

Definition set_cache (c : gmap Z (list (string * string))) (st : State) : State :=
  {| user_message_cache := c;
     user_cooldown := user_cooldown st;
     user_last_interaction := user_last_interaction st;
     sleeping := sleeping st;
     SYSTEM_MESSAGE := SYSTEM_MESSAGE st |}.

Definition set_cooldown (c : gmap Z Z) (st : State) : State :=
  {| user_message_cache := user_message_cache st;
     user_cooldown := c;
     user_last_interaction := user_last_interaction st;
     sleeping := sleeping st;
     SYSTEM_MESSAGE := SYSTEM_MESSAGE st |}.

Definition set_last_interaction (c : gmap Z Interaction) (st : State) : State :=
  {| user_message_cache := user_message_cache st;
     user_cooldown := user_cooldown st;
     user_last_interaction := c;
     sleeping := sleeping st;
     SYSTEM_MESSAGE := SYSTEM_MESSAGE st |}.

Definition set_sleeping (l : list (Z * Z)) (st : State) : State :=
  {| user_message_cache := user_message_cache st;
     user_cooldown := user_cooldown st;
     user_last_interaction := user_last_interaction st;
     sleeping := l;
     SYSTEM_MESSAGE := SYSTEM_MESSAGE st |}.

(** [d[k]] on a [defaultdict]: the value, and the dictionary with the
    default stored under [k] when the key was missing. *)
Definition defaultdict_get {V} (dflt : V) (k : Z) (d : gmap Z V) : V * gmap Z V :=
  match d !! k with
  | Some v => (v, d)
  | None => (dflt, <[k := dflt]> d)
  end.

(** Import time: the dictionaries are empty and [SYSTEM_MESSAGE] is read
    from [system_message_copy.txt]; a missing file ends the import. *)
Definition startup (fs : gmap string string) : option State :=
  match fs !! "system_message_copy.txt" with
  | None => None
  | Some text =>
      Some {| user_message_cache := ∅;
              user_cooldown := ∅;
              user_last_interaction := ∅;
              sleeping := [];
              SYSTEM_MESSAGE := text |}
  end.

(** ** Observations of the per-user state *)

(** What [user_message_cache[u]] holds. *)
Definition cache_read (u : Z) (st : State) : list (string * string) :=
  default [] (user_message_cache st !! u).

(** The truth value of [user_cooldown[u]]. *)
Definition is_on_cooldown (u : Z) (st : State) : bool :=
  negb (default 0 (user_cooldown st !! u) =? 0).

(** What [user_last_interaction[u]] holds. *)
Definition interaction_get (u : Z) (st : State) : Interaction :=
  default never_interacted (user_last_interaction st !! u).

(** ** Collaborators and results *)

(** How [openai.ChatCompletion.create] and the extraction of the reply
    end: with the reply text; with a response from which
    [response["choices"][0]["message"]["content"]] cannot be taken; with
    an [openai.error.OpenAIError] raised by the call; or with any other
    exception raised by the call. *)
Inductive Completion :=
  | Reply (ai_message : string)
  | Malformed
  | OpenAIError (e : string)
  | OtherError.

(** What is outside the process while one message is handled. *)
Record World := {
  utcnow_gate : Z;                       (* [datetime.utcnow()] in the gate *)
  utcnow_done : Z;                       (* the clock once the reply went out *)
  files : gmap string string;
  create : string → list ChatMessage → Completion;
}.

Inductive Event :=
  | Send (ch : Z) (text : string)               (* [channel.send] *)
  | SendLarge (ch : Z) (text : string)          (* [send_large_message] *)
  | KeepTyping (ch : Z)                         (* [create_task(keep_typing(..))] *)
  | CancelTyping                                (* [typing_task.cancel()] *)
  | ChatCompletion (model : string) (messages : list ChatMessage).

Inductive Exn := AttributeError | OSError | HTTPException.

(** The way a handler run ended. *)
Inductive Outcome :=
  | BotIgnored          (* [on_message] returned on [message.author.bot] *)
  | NotAdmitted         (* [on_message] returned at the gate *)
  | Throttled           (* [chat_with_openai] returned on the cooldown *)
  | Committed           (* the [try] block ran to its end *)
  | ApiError            (* [except openai.error.OpenAIError] *)
  | Unexpected          (* [except Exception] *)
  | Raised (e : Exn).   (* an exception left the handler *)

Record Result := {
  state : State;
  trace : list Event;
  outcome : Outcome;
}.

(** A [chat_with_openai] call is either over, or suspended in
    [await send_large_message(..)] with the reply in hand. *)
Inductive Attempt :=
  | Finished (r : Result)
  | Sending (st : State) (tr : list Event) (ai_message : string).

(** [channel.send(text)] raises [discord.HTTPException]: the text has
    more than 2000 characters. *)
Definition too_long (text : string) : bool :=
  2000 <? Z.of_nat (String.length text).

(** ** The handlers *)

Section Chatbot.

Variable settings : Settings.
Variable bot_user_id : Z.

(** [messages], as built in [chat_with_openai]. *)
Definition build_messages (sys : string) (cache : list (string * string))
    (text : string) : list ChatMessage :=
  [{| role := "system"; msg_content := sys |}]
    ++ map (λ turn, {| role := turn.1; msg_content := turn.2 |}) cache
    ++ [{| role := "user"; msg_content := text |}].

(** [chat_with_openai] up to and including [await send_large_message].
    The wait notice is sent outside the [try] block and the error notice
    inside an [except] clause, so a [channel.send] that raises leaves
    the function; the chunks of [send_large_message] are within the
    limit. *)
Definition chat_request (message : Message) (w : World) (st : State) : Attempt :=
  let u := author_id message in
  let ch := channel_id message in
  let '(cd, cds) := defaultdict_get 0 u (user_cooldown st) in
  let st := set_cooldown cds st in
  if negb (cd =? 0) then
    let notice := "Please wait a bit before chatting again!" in
    Finished {| state := st;
                trace := [Send ch notice];
                outcome := if too_long notice then Raised HTTPException
                           else Throttled |}
  else
    match system_message settings (files w) with
    | None =>
        Finished {| state := st; trace := [KeepTyping ch]; outcome := Raised OSError |}
    | Some sys =>
        let '(cache, caches) := defaultdict_get [] u (user_message_cache st) in
        let st := set_cache caches st in
        let messages := build_messages sys cache (content message) in
        let tr := [KeepTyping ch; ChatCompletion (openai_model settings) messages] in
        match create w (openai_model settings) messages with
        | OpenAIError e =>
            let notice := "An error occurred: " +:+ e in
            Finished {| state := st;
                        trace := tr ++ [CancelTyping; Send ch notice];
                        outcome := if too_long notice then Raised HTTPException
                                   else ApiError |}
        | OtherError =>
            Finished {| state := st; trace := tr ++ [CancelTyping]; outcome := Unexpected |}
        | Malformed =>
            Finished {| state := st;
                        trace := tr ++ [CancelTyping; CancelTyping];
                        outcome := Unexpected |}
        | Reply ai_message =>
            Sending st (tr ++ [CancelTyping; SendLarge ch ai_message]) ai_message
        end
    end.

(** The two appends, the cooldown and its timer task. *)
Definition store_exchange (message : Message) (ai_message : string) (now : Z)
    (cache : list (string * string)) (st : State) : State :=
  let u := author_id message in
  let cache := cache ++ [("user", content message)] in
  let cache := cache ++ [("assistant", ai_message)] in
  let st := set_cache (<[u := cache]> (user_message_cache st)) st in
  let st := set_cooldown (<[u := cooldown_time settings]> (user_cooldown st)) st in
  set_sleeping (sleeping st ++ [(now + seconds (cooldown_time settings), u)]) st.

(** The rest of the [try] block, resumed at time [now]: eviction, the
    appends, the cooldown; [popleft] on an empty deque raises
    [IndexError], which [except Exception] catches. *)
Definition chat_commit (message : Message) (ai_message : string) (now : Z)
    (st : State) : Result :=
  let u := author_id message in
  let '(cache, caches) := defaultdict_get [] u (user_message_cache st) in
  let st := set_cache caches st in
  if max_cache settings <=? Z.of_nat (length cache) then
    match cache with
    | [] => {| state := st; trace := [CancelTyping]; outcome := Unexpected |}
    | _ :: rest =>
        {| state := store_exchange message ai_message now rest st;
           trace := []; outcome := Committed |}
    end
  else
    {| state := store_exchange message ai_message now cache st;
       trace := []; outcome := Committed |}.

(** [chat_with_openai], when no other task runs while the reply is sent. *)
Definition chat_with_openai (message : Message) (w : World) (st : State) : Result :=
  match chat_request message w st with
  | Finished r => r
  | Sending st tr ai_message =>
      let r := chat_commit message ai_message (utcnow_done w) st in
      {| state := state r; trace := tr ++ trace r; outcome := outcome r |}
  end.

(** [message.reference and message.reference.resolved.author.id == bot.user.id];
    [None] stands for the [AttributeError] of [.author]. *)
Definition replied_to_bot (message : Message) : option bool :=
  match reference message with
  | None => Some false
  | Some None => None
  | Some (Some a) => Some (a =? bot_user_id)
  end.

Definition within_timeframe (now : Z) (last : Interaction) : bool :=
  now - time last <=? seconds 120.

Definition same_channel (last : Interaction) (message : Message) : bool :=
  bool_decide (channel last = Some (channel_id message)).

Definition on_message (message : Message) (w : World) (st : State) : Result :=
  if author_bot message then
    {| state := st; trace := []; outcome := BotIgnored |}
  else
    let mentioned := mentions_bot message in
    match replied_to_bot message with
    | None => {| state := st; trace := []; outcome := Raised AttributeError |}
    | Some replied =>
        let u := author_id message in
        let '(last_interaction, lasts) :=
          defaultdict_get never_interacted u (user_last_interaction st) in
        let st := set_last_interaction lasts st in
        if negb (mentioned || replied
                 || (within_timeframe (utcnow_gate w) last_interaction
                     && same_channel last_interaction message)) then
          {| state := st; trace := []; outcome := NotAdmitted |}
        else
          let r := chat_with_openai message w st in
          match outcome r with
          | Raised _ => r
          | _ =>
              let record := {| time := utcnow_done w;
                               channel := Some (channel_id message) |} in
              {| state := set_last_interaction
                            (<[u := record]> (user_last_interaction (state r)))
                            (state r);
                 trace := trace r;
                 outcome := outcome r |}
          end
    end.

(** [cooldown_user] once its sleep is over. *)
Definition cooldown_user (user_id : Z) (cds : gmap Z Z) : gmap Z Z :=
  <[user_id := 0]> cds.

Definition due (t : Z) (task : Z * Z) : bool := task.1 <=? t.

(** The event loop at time [t]: every [cooldown_user] task whose sleep
    has ended runs to its end. *)
Definition run_timers (t : Z) (st : State) : State :=
  let woken := List.filter (due t) (sleeping st) in
  let st := set_cooldown
              (foldr (λ task cds, cooldown_user task.2 cds) (user_cooldown st) woken)
              st in
  set_sleeping (List.filter (λ task, negb (due t task)) (sleeping st)) st.

(** A message delivered at [utcnow_gate w] and handled with no other
    handler running in between. *)
Definition deliver (message : Message) (w : World) (st : State) : Result :=
  on_message message w (run_timers (utcnow_gate w) st).

Fixpoint run (inputs : list (Message * World)) (st : State) : State :=
  match inputs with
  | [] => st
  | (message, w) :: rest => run rest (state (deliver message w st))
  end.

End Chatbot.

(** ** Long replies *)

(** The elements of [range(start, stop, step)] for a positive [step]:
    [start], [start + step], ... below [stop].  [fuel] bounds their
    number; [stop - start] is enough. *)
Fixpoint range_from (fuel start stop step : nat) : list nat :=
  match fuel with
  | O => []
  | S fuel =>
      if (start <? stop)%nat
      then start :: range_from fuel (start + step) stop step
      else []
  end.

(** [split_message(content, limit)].  A character of [content] stands
    for one character of the Python string; [content[i : i + limit]] is
    [take limit (drop i chars)].  [range] raises [ValueError] on a zero
    step ([None]) and is empty on a negative one. *)
Definition split_message (content : string) (limit : Z) : option (list string) :=
  if limit =? 0 then None
  else if limit <? 0 then Some []
  else
    let chars := String.list_ascii_of_string content in
    let n := Z.to_nat limit in
    Some ((λ i, String.string_of_list_ascii (take n (drop i chars)))
            <$> range_from (length chars) 0 (length chars) n).

(** [send_large_message(channel, content)]: one [channel.send] per chunk
    of [split_message(content)], the limit being its default, 2000. *)
Definition send_large_message (ch : Z) (content : string) : list Event :=
  Send ch <$> default [] (split_message content 2000).

(** ** The example used in the concrete runs *)

Module Scenario.

Definition user : Z := 7.
Definition room : Z := 1.
Definition bot : Z := 99.

Definition disk : gmap string string :=
  <["./system_message.txt" := "Be kind."]>
    (<["system_message_copy.txt" := "Old text."]> ∅).

Definition edited_disk : gmap string string :=
  <["./system_message.txt" := "Be brief."]> disk.

Definition fresh : State :=
  default (Build_State ∅ ∅ ∅ [] "") (startup disk).

Definition mention (text : string) : Message :=
  {| author_id := user; author_bot := false; channel_id := room;
     content := text; mentions_bot := true; reference := None |}.

(** The clock reads [t] seconds at the gate and half a second more
    when the reply has gone out. *)
Definition world_at (t : Z) (fs : gmap string string) (c : Completion) : World :=
  {| utcnow_gate := seconds t; utcnow_done := seconds t + 500000;
     files := fs; create := λ _ _, c |}.

(** A message of another bot. *)
Definition bot_message : Message :=
  {| author_id := 55; author_bot := true; channel_id := room;
     content := "beep"; mentions_bot := true; reference := None |}.

(** A reply to a message that was deleted since. *)
Definition dangling_reply (mentioned : bool) : Message :=
  {| author_id := user; author_bot := false; channel_id := room;
     content := "what was that?"; mentions_bot := mentioned;
     reference := Some None |}.

(** [n] mentions, ten seconds apart, each answered. *)
Definition exchanges (n : nat) : list (Message * World) :=
  map (λ i : nat, (mention "hi", world_at (10 * Z.of_nat i) disk (Reply "yo")))
      (seq 0 n).

(** The state after one answered mention: [user] is on cooldown until
    2.5 s. *)
Definition after_first_exchange : State :=
  state (on_message default_settings bot (mention "hi")
           (world_at 0 disk (Reply "yo")) fresh).

(** The same state ten seconds later: the cooldown is over. *)
Definition rested : State :=
  run_timers (seconds 10) after_first_exchange.

(** The default settings, without room in the cache. *)
Definition no_capacity : Settings :=
  {| max_cache := 0;
     cooldown_time := 2;
     openai_model := "gpt-3.5-turbo-16k";
     system_message_file := "./system_message.txt" |}.

(** The default settings, without cooldown. *)
Definition no_cooldown : Settings :=
  {| max_cache := 5;
     cooldown_time := 0;
     openai_model := "gpt-3.5-turbo-16k";
     system_message_file := "./system_message.txt" |}.

(** An error text of 3000 characters. *)
Definition long_error : string :=
  String.string_of_list_ascii (replicate 3000 (Ascii.ascii_of_nat 120)).

(** A message of [user] in channel [ch] with no mention and no reply
    reference. *)
Definition plain (ch : Z) (text : string) : Message :=
  {| author_id := user; author_bot := false; channel_id := ch;
     content := text; mentions_bot := false; reference := None |}.

End Scenario.

(** ** Vocabulary of the properties *)

Section Vocabulary.

Variable settings : Settings.
Variable bot_user_id : Z.

(** *** The gate *)

(** The gate of [on_message], on what the dictionary reads as. *)
Definition gate_open (message : Message) (w : World) (st : State)
    (replied : bool) : bool :=
  let last := interaction_get (author_id message) st in
  mentions_bot message || replied
  || (within_timeframe (utcnow_gate w) last && same_channel last message).

(** [on_message] goes on to [chat_with_openai]. *)
Definition admitted (message : Message) (w : World) (st : State) : Prop :=
  author_bot message = false ∧
  ∃ replied, replied_to_bot bot_user_id message = Some replied ∧
             gate_open message w st replied = true.

(** The state in which [chat_with_openai] starts: the gate has read
    [user_last_interaction[u]]. *)
Definition gated (message : Message) (st : State) : State :=
  set_last_interaction
    (defaultdict_get never_interacted (author_id message)
       (user_last_interaction st)).2 st.

Definition record_interaction (message : Message) (w : World) (r : Result) : Result :=
  {| state := set_last_interaction
                (<[author_id message :=
                     {| time := utcnow_done w; channel := Some (channel_id message) |}]>
                   (user_last_interaction (state r)))
                (state r);
     trace := trace r;
     outcome := outcome r |}.

(** *** Paths of a handler run *)

(** Nothing a user can observe has changed between [st] and [st']. *)
Definition quiet (st st' : State) : Prop :=
  (∀ v, cache_read v st' = cache_read v st) ∧
  (∀ v, is_on_cooldown v st' = is_on_cooldown v st) ∧
  (∀ v, interaction_get v st' = interaction_get v st) ∧
  sleeping st' = sleeping st.

(** [st'] is [st] after the exchange of [message] was stored at [now],
    [kept] being what stays of the user's cache. *)
Definition stored (message : Message) (ai : string) (now : Z)
    (kept : list (string * string)) (st st' : State) : Prop :=
  (∀ v, cache_read v st' =
        if decide (v = author_id message)
        then kept ++ [("user", content message); ("assistant", ai)]
        else cache_read v st) ∧
  (∀ v, is_on_cooldown v st' =
        if decide (v = author_id message)
        then negb (cooldown_time settings =? 0)
        else is_on_cooldown v st) ∧
  (∀ v, interaction_get v st' = interaction_get v st) ∧
  sleeping st' =
    sleeping st ++ [(now + seconds (cooldown_time settings), author_id message)].

(** The paths of [chat_with_openai], each with its outcome, its trace
    and its effect on the state. *)
Inductive chat_path (message : Message) (w : World) (st : State) (r : Result)
  : Prop :=
  | path_throttled :
      is_on_cooldown (author_id message) st = true →
      outcome r = Throttled →
      trace r = [Send (channel_id message) "Please wait a bit before chatting again!"] →
      quiet st (state r) →
      chat_path message w st r
  | path_no_file :
      is_on_cooldown (author_id message) st = false →
      system_message settings (files w) = None →
      outcome r = Raised OSError →
      trace r = [KeepTyping (channel_id message)] →
      quiet st (state r) →
      chat_path message w st r
  | path_asked sys messages :
      is_on_cooldown (author_id message) st = false →
      system_message settings (files w) = Some sys →
      messages = build_messages sys (cache_read (author_id message) st) (content message) →
      asked_path message w st r messages →
      chat_path message w st r

with asked_path (message : Message) (w : World) (st : State) (r : Result)
  : list ChatMessage → Prop :=
  | path_api_error messages e :
      create w (openai_model settings) messages = OpenAIError e →
      outcome r = ApiError →
      trace r = [KeepTyping (channel_id message);
                 ChatCompletion (openai_model settings) messages;
                 CancelTyping;
                 Send (channel_id message) ("An error occurred: " +:+ e)] →
      quiet st (state r) →
      asked_path message w st r messages
  | path_other_error messages :
      create w (openai_model settings) messages = OtherError →
      outcome r = Unexpected →
      trace r = [KeepTyping (channel_id message);
                 ChatCompletion (openai_model settings) messages;
                 CancelTyping] →
      quiet st (state r) →
      asked_path message w st r messages
  | path_malformed messages :
      create w (openai_model settings) messages = Malformed →
      outcome r = Unexpected →
      trace r = [KeepTyping (channel_id message);
                 ChatCompletion (openai_model settings) messages;
                 CancelTyping;
                 CancelTyping] →
      quiet st (state r) →
      asked_path message w st r messages
  | path_pop_empty messages ai :
      create w (openai_model settings) messages = Reply ai →
      max_cache settings ≤ 0 →
      cache_read (author_id message) st = [] →
      outcome r = Unexpected →
      trace r = [KeepTyping (channel_id message);
                 ChatCompletion (openai_model settings) messages;
                 CancelTyping;
                 SendLarge (channel_id message) ai;
                 CancelTyping] →
      quiet st (state r) →
      asked_path message w st r messages
  | path_committed messages ai kept :
      create w (openai_model settings) messages = Reply ai →
      (if max_cache settings <=? Z.of_nat (length (cache_read (author_id message) st))
       then ∃ oldest, cache_read (author_id message) st = oldest :: kept
       else kept = cache_read (author_id message) st) →
      outcome r = Committed →
      trace r = [KeepTyping (channel_id message);
                 ChatCompletion (openai_model settings) messages;
                 CancelTyping;
                 SendLarge (channel_id message) ai] →
      stored message ai (utcnow_done w) kept st (state r) →
      asked_path message w st r messages
  | path_notice_refused messages e :
      create w (openai_model settings) messages = OpenAIError e →
      too_long ("An error occurred: " +:+ e) = true →
      outcome r = Raised HTTPException →
      trace r = [KeepTyping (channel_id message);
                 ChatCompletion (openai_model settings) messages;
                 CancelTyping;
                 Send (channel_id message) ("An error occurred: " +:+ e)] →
      quiet st (state r) →
      asked_path message w st r messages.

(** The handler run [r] asked for a completion and the call did not
    come back with a reply. *)
Definition completion_failed (w : World) (r : Result) : Prop :=
  ∃ model messages,
    ChatCompletion model messages ∈ trace r ∧
    ∀ ai, create w model messages ≠ Reply ai.

(** *** Timers and serial runs *)

(** A task of user [v] is due at [t]. *)
Definition wakes (t : Z) (v : Z) (tasks : list (Z * Z)) : bool :=
  existsb (λ task, due t task && bool_decide (task.2 = v)) tasks.

(** The tasks and the cooldown entries agree: a user has one task at
    most, and whoever has a task is on cooldown. *)
Definition timers_sound (st : State) : Prop :=
  NoDup (sleeping st).*2 ∧
  ∀ task, task ∈ sleeping st → is_on_cooldown task.2 st = true.

Definition all_clear (st : State) : Prop :=
  ∀ v, is_on_cooldown v st = false.

(** What holds of the timers in every state that handlers running one
    after the other can reach. *)
Definition timers_inv (st : State) : Prop :=
  if decide (cooldown_time settings = 0) then all_clear st else timers_sound st.

(** The states reached from import when every handler runs to its end
    before the next one starts; the timers may run at any time. *)
Inductive serial : State → Prop :=
  | serial_startup fs st :
      startup fs = Some st → serial st
  | serial_timers t st :
      serial st → serial (run_timers t st)
  | serial_message message w st :
      serial st → serial (state (on_message settings bot_user_id message w st)).

(** What can happen next: the timers run at some time, or a message is
    handled. *)
Inductive Step :=
  | Tick (t : Z)
  | Handle (message : Message) (w : World).

Definition step (s : Step) (st : State) : State :=
  match s with
  | Tick t => run_timers t st
  | Handle message w => state (on_message settings bot_user_id message w st)
  end.


(** *** Shape of a cache *)

(** The two turns that one exchange stores, from the user's text and
    the reply. *)
Definition exchange_turns (qa : string * string) : list (string * string) :=
  [("user", qa.1); ("assistant", qa.2)].

(** [l] is a run of whole exchanges, possibly after the assistant turn
    of an exchange whose user turn is gone. *)
Definition paired (l : list (string * string)) : Prop :=
  ∃ lead pairs,
    l = lead ++ (pairs ≫= exchange_turns) ∧
    (lead = [] ∨ ∃ a, lead = [("assistant", a)]).

(** The handler returned: it ended in none of the ways that leave it by
    an exception. *)
Definition returned (r : Result) : Prop := ∀ e, outcome r ≠ Raised e.

End Vocabulary.

(** ** Properties *)

(** Membership of an event in an explicit trace: one goal per event of
    the trace that is not plainly another one. *)
Ltac in_trace H :=
  repeat (apply elem_of_cons in H as [H | H]; [try discriminate H |]);
  try (by apply elem_of_nil in H).

Section Properties.

Variable settings : Settings.
Variable bot_user_id : Z.

(** *** Reading a [defaultdict] does not change what it reads as *)

Lemma defaultdict_get_value {V} (dflt : V) k (d : gmap Z V) :
  (defaultdict_get dflt k d).1 = default dflt (d !! k).
Proof. unfold defaultdict_get. by destruct (d !! k). Qed.

Lemma defaultdict_get_read {V} (dflt : V) k j (d : gmap Z V) :
  default dflt ((defaultdict_get dflt k d).2 !! j) = default dflt (d !! j).
Proof.
  unfold defaultdict_get. destruct (d !! k) eqn:Hk; [done |]. simpl.
  destruct (decide (k = j)) as [-> | Hne].
  - by rewrite lookup_insert_eq, Hk.
  - by rewrite lookup_insert_ne.
Qed.

(** *** The shape of one [chat_with_openai] call *)

(** The ways [chat_request] can go, read off the cooldown entry, the
    file and the completion. *)
Lemma chat_request_cases message w st :
  let u := author_id message in
  let ch := channel_id message in
  let st1 := set_cooldown (defaultdict_get 0 u (user_cooldown st)).2 st in
  let st2 := set_cache (defaultdict_get [] u (user_message_cache st1)).2 st1 in
  let messages sys := build_messages sys (cache_read u st) (content message) in
  let ask sys := ChatCompletion (openai_model settings) (messages sys) in
  (is_on_cooldown u st = true ∧
   chat_request settings message w st =
     Finished {| state := st1;
                 trace := [Send ch "Please wait a bit before chatting again!"];
                 outcome := Throttled |})
  ∨ (is_on_cooldown u st = false ∧ system_message settings (files w) = None ∧
     chat_request settings message w st =
       Finished {| state := st1; trace := [KeepTyping ch]; outcome := Raised OSError |})
  ∨ (∃ sys, is_on_cooldown u st = false ∧
       system_message settings (files w) = Some sys ∧
       ((∃ e, create w (openai_model settings) (messages sys) = OpenAIError e ∧
          chat_request settings message w st =
            Finished {| state := st2;
                        trace := [KeepTyping ch; ask sys; CancelTyping;
                                  Send ch ("An error occurred: " +:+ e)];
                        outcome := if too_long ("An error occurred: " +:+ e)
                                   then Raised HTTPException
                                   else ApiError |})
        ∨ (create w (openai_model settings) (messages sys) = OtherError ∧
           chat_request settings message w st =
             Finished {| state := st2;
                         trace := [KeepTyping ch; ask sys; CancelTyping];
                         outcome := Unexpected |})
        ∨ (create w (openai_model settings) (messages sys) = Malformed ∧
           chat_request settings message w st =
             Finished {| state := st2;
                         trace := [KeepTyping ch; ask sys; CancelTyping; CancelTyping];
                         outcome := Unexpected |})
        ∨ (∃ ai, create w (openai_model settings) (messages sys) = Reply ai ∧
             chat_request settings message w st =
               Sending st2 [KeepTyping ch; ask sys; CancelTyping; SendLarge ch ai] ai))).
Proof.
  intros u ch st1 st2 messages ask.
  unfold chat_request, is_on_cooldown.
  rewrite (surjective_pairing (defaultdict_get 0 _ _)).
  rewrite defaultdict_get_value. fold u ch. fold st1.
  destruct (negb (default 0 (user_cooldown st !! u) =? 0)) eqn:Hcd; [by left |].
  right.
  destruct (system_message settings (files w)) as [sys |] eqn:Hsys; [| by left].
  right. exists sys. split; [done |]. split; [done |].
  rewrite (surjective_pairing (defaultdict_get [] _ _)).
  rewrite defaultdict_get_value. fold st2.
  change (default [] (user_message_cache st1 !! u)) with (cache_read u st).
  fold (messages sys).
  destruct (create w (openai_model settings) (messages sys)) as [ai | | e |] eqn:Hc.
  - right; right; right. by exists ai.
  - right; right; left. done.
  - left. by exists e.
  - right; left. done.
Qed.

(** The two ways [chat_commit] can go. *)
Lemma chat_commit_cases message ai now st :
  let u := author_id message in
  let old := cache_read u st in
  let st1 := set_cache (defaultdict_get [] u (user_message_cache st)).2 st in
  (max_cache settings ≤ Z.of_nat (length old) ∧ old = [] ∧
   chat_commit settings message ai now st =
     {| state := st1; trace := [CancelTyping]; outcome := Unexpected |})
  ∨ (∃ kept,
       (if max_cache settings <=? Z.of_nat (length old)
        then ∃ oldest, old = oldest :: kept else kept = old) ∧
       chat_commit settings message ai now st =
         {| state := store_exchange settings message ai now kept st1;
            trace := []; outcome := Committed |}).
Proof.
  intros u old st1. unfold chat_commit.
  rewrite (surjective_pairing (defaultdict_get [] _ _)).
  rewrite defaultdict_get_value. fold u. fold st1.
  change (default [] (user_message_cache st !! u)) with old.
  destruct (max_cache settings <=? Z.of_nat (length old)) eqn:Hfull.
  - destruct old as [| oldest kept] eqn:Hold.
    + left. split; [by apply Z.leb_le | done].
    + right. exists kept. split; [by exists oldest | done].
  - right. by exists old.
Qed.

(** What [store_exchange] leaves behind. *)
Lemma store_exchange_cache message ai now kept st v :
  cache_read v (store_exchange settings message ai now kept st) =
  if decide (v = author_id message)
  then kept ++ [("user", content message); ("assistant", ai)]
  else cache_read v st.
Proof.
  unfold store_exchange, cache_read. simpl.
  case_decide as Hv.
  - subst v. rewrite lookup_insert_eq. simpl. by rewrite <- app_assoc.
  - by rewrite lookup_insert_ne.
Qed.

Lemma store_exchange_cooldown message ai now kept st v :
  is_on_cooldown v (store_exchange settings message ai now kept st) =
  if decide (v = author_id message)
  then negb (cooldown_time settings =? 0)
  else is_on_cooldown v st.
Proof.
  unfold store_exchange, is_on_cooldown. simpl.
  case_decide as Hv.
  - subst v. by rewrite lookup_insert_eq.
  - by rewrite lookup_insert_ne.
Qed.

Lemma store_exchange_sleeping message ai now kept st :
  sleeping (store_exchange settings message ai now kept st) =
  sleeping st ++ [(now + seconds (cooldown_time settings), author_id message)].
Proof. done. Qed.

Lemma store_exchange_interaction message ai now kept st :
  user_last_interaction (store_exchange settings message ai now kept st) =
  user_last_interaction st.
Proof. done. Qed.

(** *** The gate of [on_message] *)

Lemma on_message_gate message w st :
  author_bot message = false →
  ∀ replied, replied_to_bot bot_user_id message = Some replied →
  on_message settings bot_user_id message w st =
    if gate_open message w st replied then
      let r := chat_with_openai settings message w (gated message st) in
      match outcome r with
      | Raised _ => r
      | _ => record_interaction message w r
      end
    else {| state := gated message st; trace := []; outcome := NotAdmitted |}.
Proof.
  intros Hbot replied Hreplied. unfold on_message.
  rewrite Hbot, Hreplied.
  rewrite (surjective_pairing (defaultdict_get never_interacted _ _)).
  rewrite defaultdict_get_value.
  change (default never_interacted (user_last_interaction st !! author_id message))
    with (interaction_get (author_id message) st).
  fold (gated message st). fold (gate_open message w st replied).
  by destruct (gate_open message w st replied).
Qed.

Lemma gated_cache message st v : cache_read v (gated message st) = cache_read v st.
Proof. done. Qed.

Lemma gated_cooldown message st v :
  is_on_cooldown v (gated message st) = is_on_cooldown v st.
Proof. done. Qed.

Lemma gated_interaction message st v :
  interaction_get v (gated message st) = interaction_get v st.
Proof. unfold gated, interaction_get. simpl. apply defaultdict_get_read. Qed.

(** *** Every path through [chat_with_openai] *)

Lemma quiet_refl st : quiet st st.
Proof. by repeat split. Qed.

Lemma quiet_trans st1 st2 st3 : quiet st1 st2 → quiet st2 st3 → quiet st1 st3.
Proof.
  intros (Ha & Hb & Hc & Hd) (Ha' & Hb' & Hc' & Hd').
  repeat split; intros; congruence.
Qed.

Lemma quiet_read_cooldown u st :
  quiet st (set_cooldown (defaultdict_get 0 u (user_cooldown st)).2 st).
Proof.
  repeat split; try done.
  intros v. unfold is_on_cooldown. simpl. by rewrite defaultdict_get_read.
Qed.

Lemma quiet_read_cache u st :
  quiet st (set_cache (defaultdict_get [] u (user_message_cache st)).2 st).
Proof.
  repeat split; try done.
  intros v. unfold cache_read. simpl. by rewrite defaultdict_get_read.
Qed.

Lemma quiet_gated message st : quiet st (gated message st).
Proof.
  repeat split; try done. intros v. apply gated_interaction.
Qed.

Lemma stored_after_quiet message ai now kept st1 st2 st3 :
  quiet st1 st2 → stored settings message ai now kept st2 st3 →
  stored settings message ai now kept st1 st3.
Proof.
  intros (Ha & Hb & Hc & Hd) (Ha' & Hb' & Hc' & Hd').
  repeat split; intros.
  - rewrite Ha'. by rewrite Ha.
  - rewrite Hb'. by rewrite Hb.
  - by rewrite Hc'.
  - by rewrite Hd', Hd.
Qed.

Lemma store_exchange_stored message ai now kept st :
  stored settings message ai now kept st (store_exchange settings message ai now kept st).
Proof.
  repeat split; intros.
  - apply store_exchange_cache.
  - apply store_exchange_cooldown.
Qed.

Lemma chat_with_openai_path message w st :
  chat_path settings message w st (chat_with_openai settings message w st).
Proof.
  unfold chat_with_openai.
  pose proof (quiet_read_cooldown (author_id message) st) as Hq1.
  destruct (chat_request_cases message w st)
    as [[Hcd ->] | [(Hcd & Hsys & ->)
       | (sys & Hcd & Hsys &
          [(e & Hc & ->) | [(Hc & ->) | [(Hc & ->) | (ai & Hc & ->)]]])]].
  - by apply path_throttled.
  - by apply path_no_file.
  - eapply path_asked; [done | done | done |]. cbn [state trace outcome].
    destruct (too_long ("An error occurred: " +:+ e)) eqn:Hlong.
    + eapply path_notice_refused; [done | done | done | done |].
      eapply quiet_trans; [exact Hq1 | apply quiet_read_cache].
    + eapply path_api_error; [done | done | done |].
      eapply quiet_trans; [exact Hq1 | apply quiet_read_cache].
  - eapply path_asked; [done | done | done |].
    eapply path_other_error; [done | done | done |].
    eapply quiet_trans; [exact Hq1 | apply quiet_read_cache].
  - eapply path_asked; [done | done | done |].
    eapply path_malformed; [done | done | done |].
    eapply quiet_trans; [exact Hq1 | apply quiet_read_cache].
  - set (st1 := set_cooldown _ st) in *.
    set (st2 := set_cache _ st1).
    assert (Hq2 : quiet st st2)
      by (eapply quiet_trans; [exact Hq1 | apply quiet_read_cache]).
    assert (Hold : cache_read (author_id message) st2 = cache_read (author_id message) st)
      by apply Hq2.
    eapply path_asked; [done | done | done |].
    destruct (chat_commit_cases message ai (utcnow_done w) st2)
      as [(Hfull & Hnil & ->) | (kept & Hkept & ->)].
    + rewrite Hold in Hnil. rewrite Hold, Hnil in Hfull. simpl in Hfull.
      eapply path_pop_empty; [done | done | done | done | done |].
      eapply quiet_trans; [exact Hq2 | apply quiet_read_cache].
    + rewrite Hold in Hkept.
      eapply path_committed; [done | exact Hkept | done | done |].
      eapply stored_after_quiet; [| apply store_exchange_stored].
      eapply quiet_trans; [exact Hq2 | apply quiet_read_cache].
Qed.

(** *** Every path through [on_message] *)

Lemma record_interaction_get message w r v :
  interaction_get v (state (record_interaction message w r)) =
  if decide (v = author_id message)
  then {| time := utcnow_done w; channel := Some (channel_id message) |}
  else interaction_get v (state r).
Proof.
  unfold record_interaction, interaction_get. simpl.
  case_decide as Hv.
  - subst v. by rewrite lookup_insert_eq.
  - by rewrite lookup_insert_ne.
Qed.

(** An admitted message runs [chat_with_openai] from the gated state
    and, unless an exception comes out of it, the interaction record of
    its author is overwritten. *)
Lemma on_message_admitted message w st :
  admitted bot_user_id message w st →
  let r0 := chat_with_openai settings message w (gated message st) in
  chat_path settings message w (gated message st) r0 ∧
  on_message settings bot_user_id message w st =
    match outcome r0 with
    | Raised _ => r0
    | _ => record_interaction message w r0
    end.
Proof.
  intros (Hbot & replied & Hreplied & Hopen) r0.
  split; [apply chat_with_openai_path |].
  by rewrite (on_message_gate message w st Hbot replied Hreplied), Hopen.
Qed.

(** A message that is not admitted asks nothing of Discord or OpenAI
    and leaves what users can observe as it was. *)
Lemma on_message_not_admitted message w st :
  ¬ admitted bot_user_id message w st →
  let r := on_message settings bot_user_id message w st in
  trace r = [] ∧ quiet st (state r) ∧
  (outcome r = BotIgnored ∨ outcome r = NotAdmitted ∨ outcome r = Raised AttributeError).
Proof.
  intros Hnot r. subst r. unfold on_message.
  destruct (author_bot message) eqn:Hbot.
  { simpl. split; [done |]. split; [apply quiet_refl | by left]. }
  destruct (replied_to_bot bot_user_id message) as [replied |] eqn:Hreplied.
  2:{ simpl. split; [done |]. split; [apply quiet_refl | by right; right]. }
  rewrite (surjective_pairing (defaultdict_get never_interacted _ _)).
  rewrite defaultdict_get_value.
  change (default never_interacted (user_last_interaction st !! author_id message))
    with (interaction_get (author_id message) st).
  fold (gated message st). fold (gate_open message w st replied).
  destruct (gate_open message w st replied) eqn:Hopen.
  { exfalso. apply Hnot. split; [done |]. by exists replied. }
  simpl. split; [done |]. split; [apply quiet_gated | by right; left].
Qed.

Lemma admitted_dec message w st :
  admitted bot_user_id message w st ∨ ¬ admitted bot_user_id message w st.
Proof.
  unfold admitted.
  destruct (author_bot message); [right; intros [? _]; done |].
  destruct (replied_to_bot bot_user_id message) as [replied |].
  - destruct (gate_open message w st replied) eqn:Hopen.
    + left. split; [done |]. by exists replied.
    + right. intros (_ & replied' & [= <-] & Hopen'). congruence.
  - right. intros (_ & replied' & ? & _). done.
Qed.

(** *** Bot authors *)

(** C10. A message written by a bot account makes [on_message] return at
    once: nothing is sent, and the state, key sets of the dictionaries
    included, is the one it started from. *)
Theorem bot_author_is_ignored message w st :
  author_bot message = true →
  on_message settings bot_user_id message w st =
    {| state := st; trace := []; outcome := BotIgnored |}.
Proof. intros Hbot. unfold on_message. by rewrite Hbot. Qed.

(** *** Prompt assembly *)

(** C6. Every completion request of a handler run carries the
    configured model and the prompt made of one system turn holding the
    text of the system-message file, the turns of the author's cache in
    their stored order with their roles, and one user turn holding the
    content of the message. *)
Theorem prompt_is_system_cache_user message w st model messages :
  ChatCompletion model messages
    ∈ trace (on_message settings bot_user_id message w st) →
  ∃ sys,
    system_message settings (files w) = Some sys ∧
    model = openai_model settings ∧
    messages =
      [{| role := "system"; msg_content := sys |}]
        ++ map (λ turn, {| role := turn.1; msg_content := turn.2 |})
               (cache_read (author_id message) st)
        ++ [{| role := "user"; msg_content := content message |}].
Proof.
  intros Hin.
  destruct (admitted_dec message w st) as [Hadm | Hnot].
  2:{ destruct (on_message_not_admitted message w st Hnot) as (Htr & _).
      rewrite Htr in Hin. by apply elem_of_nil in Hin. }
  destruct (on_message_admitted message w st Hadm) as [Hpath Heq].
  set (r0 := chat_with_openai settings message w (gated message st)) in *.
  assert (Htrace : trace (on_message settings bot_user_id message w st) = trace r0).
  { rewrite Heq. by destruct (outcome r0). }
  rewrite Htrace in Hin. clear Heq Htrace.
  destruct Hpath as [_ _ Htr _ | _ _ _ Htr _ | sys messages' _ Hsys Hmsgs Hasked].
  - rewrite Htr in Hin. in_trace Hin.
  - rewrite Htr in Hin. in_trace Hin.
  - exists sys. split; [done |].
    rewrite gated_cache in Hmsgs. fold (build_messages sys
      (cache_read (author_id message) st) (content message)).
    rewrite <- Hmsgs.
    destruct Hasked as [? e _ _ Htr _ | ? _ _ Htr _ | ? _ _ Htr _
                        | ? ai _ _ _ _ Htr _ | ? ai kept _ _ _ Htr _
                        | ? e _ _ _ Htr _];
      rewrite Htr in Hin; in_trace Hin; by injection Hin as -> ->.
Qed.

(** *** Successful exchanges *)

Lemma on_message_admitted_outcome message w st :
  admitted bot_user_id message w st →
  outcome (on_message settings bot_user_id message w st) =
  outcome (chat_with_openai settings message w (gated message st)).
Proof.
  intros Hadm. destruct (on_message_admitted message w st Hadm) as [_ ->].
  by destruct (outcome (chat_with_openai settings message w (gated message st))) eqn:Ho.
Qed.

Lemma on_message_admitted_trace message w st :
  admitted bot_user_id message w st →
  trace (on_message settings bot_user_id message w st) =
  trace (chat_with_openai settings message w (gated message st)).
Proof.
  intros Hadm. destruct (on_message_admitted message w st Hadm) as [_ ->].
  by destruct (outcome (chat_with_openai settings message w (gated message st))).
Qed.

(** What a successful exchange read and what it left in the caches. *)
Lemma committed_exchange message w st :
  let u := author_id message in
  let old := cache_read u st in
  let r := on_message settings bot_user_id message w st in
  outcome r = Committed →
  ∃ sys ai kept,
    system_message settings (files w) = Some sys ∧
    create w (openai_model settings) (build_messages sys old (content message))
      = Reply ai ∧
    (if max_cache settings <=? Z.of_nat (length old)
     then ∃ oldest, old = oldest :: kept
     else kept = old) ∧
    ∀ v, cache_read v (state r) =
         if decide (v = u)
         then kept ++ [("user", content message); ("assistant", ai)]
         else cache_read v st.
Proof.
  intros u old r Hout. subst r.
  destruct (admitted_dec message w st) as [Hadm | Hnot].
  2:{ destruct (on_message_not_admitted message w st Hnot)
        as (_ & _ & [H | [H | H]]); congruence. }
  destruct (on_message_admitted message w st Hadm) as [Hpath Heq].
  rewrite (on_message_admitted_outcome message w st Hadm) in Hout.
  rewrite Heq, Hout. clear Heq.
  destruct Hpath as [_ Ho _ _ | _ _ Ho _ _ | sys messages _ Hsys Hmsgs Hasked];
    [congruence | congruence |].
  destruct Hasked as [? e _ Ho _ _ | ? _ Ho _ _ | ? _ Ho _ _ | ? ai _ _ _ Ho _ _
                      | ? ai kept Hc Hkept _ _ (Hcache & _) | ? e _ _ Ho _ _];
    [congruence | congruence | congruence | congruence | | congruence].
  rewrite gated_cache in Hmsgs, Hkept. subst messages.
  exists sys, ai, kept. fold u in Hc, Hkept, Hcache. fold old in Hc, Hkept.
  split; [done |]. split; [done |]. split; [done |].
  intros v.
  change (cache_read v (state (record_interaction message w
            (chat_with_openai settings message w (gated message st)))))
    with (cache_read v (state (chat_with_openai settings message w (gated message st)))).
  rewrite Hcache. by rewrite gated_cache.
Qed.

(** C2. A successful exchange leaves the author's cache as what was
    kept of it followed by the user turn and then the assistant turn,
    where what was kept is the whole cache when it held fewer than
    [max_cache] turns and the cache without its oldest turn otherwise;
    the other users' caches are as before. *)
Theorem successful_exchange_appends_pair message w st :
  let u := author_id message in
  let old := cache_read u st in
  let r := on_message settings bot_user_id message w st in
  outcome r = Committed →
  ∃ sys ai kept,
    system_message settings (files w) = Some sys ∧
    create w (openai_model settings) (build_messages sys old (content message))
      = Reply ai ∧
    (if max_cache settings <=? Z.of_nat (length old)
     then ∃ oldest, old = oldest :: kept
     else kept = old) ∧
    cache_read u (state r)
      = kept ++ [("user", content message); ("assistant", ai)] ∧
    ∀ v, v ≠ u → cache_read v (state r) = cache_read v st.
Proof.
  intros u old r Hout.
  destruct (committed_exchange message w st Hout)
    as (sys & ai & kept & Hsys & Hc & Hkept & Hcache).
  exists sys, ai, kept. repeat (split; [done |]). split.
  - rewrite Hcache. by rewrite decide_True.
  - intros v Hv. rewrite Hcache. by rewrite decide_False.
Qed.

(** *** Failed exchanges and cooldown violations *)

Lemma record_interaction_after_quiet message w st r :
  quiet st (state r) →
  let st' := state (record_interaction message w r) in
  (∀ v, cache_read v st' = cache_read v st) ∧
  (∀ v, is_on_cooldown v st' = is_on_cooldown v st) ∧
  sleeping st' = sleeping st ∧
  interaction_get (author_id message) st' =
    {| time := utcnow_done w; channel := Some (channel_id message) |} ∧
  (∀ v, v ≠ author_id message → interaction_get v st' = interaction_get v st).
Proof.
  intros (Ha & Hb & Hc & Hd) st'. subst st'.
  split; [exact Ha |]. split; [exact Hb |]. split; [exact Hd |].
  split.
  - rewrite record_interaction_get. by rewrite decide_True.
  - intros v Hv. rewrite record_interaction_get. rewrite decide_False by done.
    apply Hc.
Qed.

(** C3, as the code has it.  When the completion call of a handler run
    fails, every user's cache and cooldown read after the run as they
    did before it, no timer was started and nobody else's interaction
    record moved.  The interaction record of the author is overwritten
    with the time at which the run ended and the channel of the message
    when the handler returns; when Discord refuses the error notice as
    too long, the exception of [channel.send] leaves the handler before
    the record is written, and the record too reads as before. *)
Theorem failed_exchange_state message w st :
  let u := author_id message in
  let r := on_message settings bot_user_id message w st in
  completion_failed w r →
  (∀ v, cache_read v (state r) = cache_read v st) ∧
  (∀ v, is_on_cooldown v (state r) = is_on_cooldown v st) ∧
  sleeping (state r) = sleeping st ∧
  (∀ v, v ≠ u → interaction_get v (state r) = interaction_get v st) ∧
  ((returned r ∧
    interaction_get u (state r) =
      {| time := utcnow_done w; channel := Some (channel_id message) |})
   ∨ (outcome r = Raised HTTPException ∧
      interaction_get u (state r) = interaction_get u st ∧
      ∃ text, Send (channel_id message) text ∈ trace r ∧ too_long text = true)).
Proof.
  intros u r (model & messages & Hin & Hfail). subst r u.
  destruct (admitted_dec message w st) as [Hadm | Hnot].
  2:{ destruct (on_message_not_admitted message w st Hnot) as (Htr & _).
      rewrite Htr in Hin. by apply elem_of_nil in Hin. }
  destruct (on_message_admitted message w st Hadm) as [Hpath Heq].
  rewrite (on_message_admitted_trace message w st Hadm) in Hin.
  rewrite Heq. clear Heq.
  pose proof (quiet_gated message st) as Hg.
  set (r0 := chat_with_openai settings message w (gated message st)) in *.
  assert (Hreturned : ∀ o, outcome r0 = o → (∀ e, o ≠ Raised e) →
            quiet (gated message st) (state r0) →
            let r := (match o with
                      | Raised _ => r0
                      | _ => record_interaction message w r0
                      end) in
            (∀ v, cache_read v (state r) = cache_read v st) ∧
            (∀ v, is_on_cooldown v (state r) = is_on_cooldown v st) ∧
            sleeping (state r) = sleeping st ∧
            (∀ v, v ≠ author_id message →
                  interaction_get v (state r) = interaction_get v st) ∧
            ((returned r ∧
              interaction_get (author_id message) (state r) =
                {| time := utcnow_done w; channel := Some (channel_id message) |})
             ∨ (outcome r = Raised HTTPException ∧
                interaction_get (author_id message) (state r)
                  = interaction_get (author_id message) st ∧
                ∃ text, Send (channel_id message) text ∈ trace r
                        ∧ too_long text = true))).
  { intros o Ho Hret Hq r.
    assert (Hr : r = record_interaction message w r0)
      by (subst r; destruct o; try done; by destruct (Hret e)).
    rewrite Hr.
    destruct (record_interaction_after_quiet message w st r0
                (quiet_trans _ _ _ Hg Hq)) as (Ha & Hb & Hc & Hd & He).
    repeat (split; [done |]). left. split; [| done].
    intros e. cbn [record_interaction outcome]. rewrite Ho. apply Hret. }
  destruct Hpath as [_ _ Htr _ | _ _ _ Htr _ | sys messages' _ Hsys Hmsgs Hasked].
  - rewrite Htr in Hin. in_trace Hin.
  - rewrite Htr in Hin. in_trace Hin.
  - destruct Hasked as [? e _ Ho Htr Hq | ? _ Ho Htr Hq | ? _ Ho Htr Hq
                        | ? ai Hc _ _ _ Htr _ | ? ai kept Hc _ _ Htr _
                        | ? e _ Hlong Ho Htr Hq].
    + rewrite Ho. by apply (Hreturned ApiError).
    + rewrite Ho. by apply (Hreturned Unexpected).
    + rewrite Ho. by apply (Hreturned Unexpected).
    + rewrite Htr in Hin. in_trace Hin. injection Hin as -> ->.
      by destruct (Hfail ai).
    + rewrite Htr in Hin. in_trace Hin. injection Hin as -> ->.
      by destruct (Hfail ai).
    + rewrite Ho.
      destruct (quiet_trans _ _ _ Hg Hq) as (Ha & Hb & Hc & Hd).
      repeat (split; [done |]). right. split; [done |]. split; [done |].
      exists ("An error occurred: " +:+ e). split; [| done].
      rewrite Htr. do 3 apply list_elem_of_further. apply list_elem_of_here.
Qed.

(** C4, as the code has it.  An admitted message of a user on cooldown
    gets the wait notice and nothing else: no completion is requested,
    every user's cache and cooldown read as before and no timer is
    started, while the interaction record of the author is overwritten
    with the time at which the run ended and the channel of the
    message. *)
Theorem cooldown_violation_state message w st :
  let u := author_id message in
  let r := on_message settings bot_user_id message w st in
  is_on_cooldown u st = true →
  admitted bot_user_id message w st →
  outcome r = Throttled ∧
  trace r = [Send (channel_id message) "Please wait a bit before chatting again!"] ∧
  (∀ v, cache_read v (state r) = cache_read v st) ∧
  (∀ v, is_on_cooldown v (state r) = is_on_cooldown v st) ∧
  sleeping (state r) = sleeping st ∧
  interaction_get u (state r) =
    {| time := utcnow_done w; channel := Some (channel_id message) |} ∧
  (∀ v, v ≠ u → interaction_get v (state r) = interaction_get v st).
Proof.
  intros u r Hcd Hadm. subst r u.
  destruct (on_message_admitted message w st Hadm) as [Hpath Heq].
  rewrite Heq. clear Heq.
  rewrite <- (gated_cooldown message st) in Hcd.
  pose proof (quiet_gated message st) as Hg.
  destruct Hpath as [_ Ho Htr Hq | Hfree _ _ _ _ | sys messages' Hfree _ _ _];
    [| congruence | congruence].
  rewrite Ho. split; [done |]. split; [exact Htr |].
  apply record_interaction_after_quiet. by eapply quiet_trans.
Qed.

(** *** Cooldown timers *)

Lemma woken_lookup (tasks : list (Z * Z)) (cds : gmap Z Z) (v : Z) :
  foldr (λ task cds, cooldown_user task.2 cds) cds tasks !! v =
  if existsb (λ task, bool_decide (task.2 = v)) tasks then Some 0 else cds !! v.
Proof.
  induction tasks as [| task tasks IH]; simpl; [done |].
  unfold cooldown_user at 1.
  case_bool_decide as Hv; simpl.
  - subst v. by rewrite lookup_insert_eq.
  - by rewrite lookup_insert_ne.
Qed.

Lemma existsb_filter {A} (f g : A → bool) (l : list A) :
  existsb g (List.filter f l) = existsb (λ x, f x && g x) l.
Proof.
  induction l as [| x l IH]; simpl; [done |].
  destruct (f x); simpl; by rewrite IH.
Qed.

Lemma run_timers_cooldown t st v :
  is_on_cooldown v (run_timers t st) =
  if wakes t v (sleeping st) then false else is_on_cooldown v st.
Proof.
  unfold is_on_cooldown, run_timers, wakes. simpl.
  rewrite woken_lookup, existsb_filter.
  by destruct (existsb _ (sleeping st)).
Qed.

Lemma run_timers_sleeping t st :
  sleeping (run_timers t st) = List.filter (λ task, negb (due t task)) (sleeping st).
Proof. done. Qed.

Lemma run_timers_cache t st v : cache_read v (run_timers t st) = cache_read v st.
Proof. done. Qed.

Lemma run_timers_interaction t st v :
  interaction_get v (run_timers t st) = interaction_get v st.
Proof. done. Qed.

Lemma wakes_true t v tasks :
  wakes t v tasks = true ↔ ∃ dl, (dl, v) ∈ tasks ∧ dl ≤ t.
Proof.
  unfold wakes. rewrite existsb_exists. split.
  - intros ([dl v'] & Hin & Hdue). apply andb_true_iff in Hdue as [Hdue Hv].
    apply bool_decide_eq_true in Hv. simpl in Hv. subst v'.
    exists dl. split; [by apply list_elem_of_In |].
    by apply Z.leb_le in Hdue.
  - intros (dl & Hin & Hle). exists (dl, v).
    split; [by apply list_elem_of_In |].
    apply andb_true_iff. split.
    + by apply Z.leb_le.
    + by apply bool_decide_eq_true.
Qed.

Lemma elem_of_bool_filter {A} (f : A → bool) (l : list A) (x : A) :
  x ∈ List.filter f l ↔ x ∈ l ∧ f x = true.
Proof. rewrite !list_elem_of_In. apply filter_In. Qed.

Lemma bool_filter_sublist {A} (f : A → bool) (l : list A) :
  List.filter f l `sublist_of` l.
Proof.
  induction l as [| x l IH]; simpl; [constructor |].
  destruct (f x); by constructor.
Qed.

(** With one task per user at most, a user's task is known by its user. *)
Lemma one_task_per_user (tasks : list (Z * Z)) (a b : Z * Z) :
  NoDup tasks.*2 → a ∈ tasks → b ∈ tasks → a.2 = b.2 → a = b.
Proof.
  induction tasks as [| c tasks IH]; intros Hnd Ha Hb Heq.
  { by apply elem_of_nil in Ha. }
  rewrite fmap_cons in Hnd. apply NoDup_cons in Hnd as [Hfresh Hnd].
  apply elem_of_cons in Ha as [-> | Ha]; apply elem_of_cons in Hb as [-> | Hb].
  - done.
  - destruct Hfresh. rewrite Heq. by apply list_elem_of_fmap_2.
  - destruct Hfresh. rewrite <- Heq. by apply list_elem_of_fmap_2.
  - by apply IH.
Qed.

Lemma timers_inv_startup fs st : startup fs = Some st → timers_inv settings st.
Proof.
  unfold startup. destruct (fs !! _); [| done]. intros [= <-].
  unfold timers_inv. case_decide.
  - by intros v.
  - split; [constructor |]. intros task Hin. by apply elem_of_nil in Hin.
Qed.

Lemma timers_inv_run_timers t st :
  timers_inv settings st → timers_inv settings (run_timers t st).
Proof.
  unfold timers_inv. case_decide as Hd.
  - intros Hclear v. rewrite run_timers_cooldown, Hclear.
    by destruct (wakes t v (sleeping st)).
  - intros [Hnd Hon]. split.
    + rewrite run_timers_sleeping.
      eapply sublist_NoDup; [exact Hnd |].
      apply fmap_sublist, bool_filter_sublist.
    + intros task Hin. rewrite run_timers_sleeping in Hin.
      apply elem_of_bool_filter in Hin as [Hin Hlate].
      rewrite run_timers_cooldown.
      destruct (wakes t task.2 (sleeping st)) eqn:Hw; [| by apply Hon].
      apply wakes_true in Hw as (dl & Hin' & Hle).
      assert (Heq : (dl, task.2) = task)
        by (by apply (one_task_per_user (sleeping st))).
      rewrite <- Heq in Hlate. unfold due in Hlate. simpl in Hlate.
      apply negb_true_iff, Z.leb_gt in Hlate. lia.
Qed.

(** The effect of one handler run on cooldowns and timers. *)
Lemma on_message_cooldown_effect message w st :
  let u := author_id message in
  let r := on_message settings bot_user_id message w st in
  (outcome r ≠ Committed ∧
   sleeping (state r) = sleeping st ∧
   ∀ v, is_on_cooldown v (state r) = is_on_cooldown v st)
  ∨ (outcome r = Committed ∧
     is_on_cooldown u st = false ∧
     sleeping (state r) =
       sleeping st ++ [(utcnow_done w + seconds (cooldown_time settings), u)] ∧
     ∀ v, is_on_cooldown v (state r) =
          if decide (v = u) then negb (cooldown_time settings =? 0)
          else is_on_cooldown v st).
Proof.
  intros u r. subst r u.
  destruct (admitted_dec message w st) as [Hadm | Hnot].
  2:{ destruct (on_message_not_admitted message w st Hnot)
        as (_ & (_ & Hcd & _ & Hsl) & Ho).
      left. split; [| done]. destruct Ho as [-> | [-> | ->]]; done. }
  destruct (on_message_admitted message w st Hadm) as [Hpath Heq].
  pose proof (quiet_gated message st) as Hg.
  set (r0 := chat_with_openai settings message w (gated message st)) in *.
  assert (Hst : sleeping (state (on_message settings bot_user_id message w st))
                  = sleeping (state r0) ∧
                ∀ v, is_on_cooldown v (state (on_message settings bot_user_id message w st))
                     = is_on_cooldown v (state r0)).
  { rewrite Heq. by destruct (outcome r0). }
  destruct Hst as [-> Hcd].
  rewrite (on_message_admitted_outcome message w st Hadm). fold r0.
  assert (Hquiet : ∀ o, outcome r0 = o → o ≠ Committed → quiet (gated message st) (state r0) →
            (outcome r0 ≠ Committed ∧ sleeping (state r0) = sleeping st ∧
             ∀ v, is_on_cooldown v (state (on_message settings bot_user_id message w st))
                  = is_on_cooldown v st)).
  { intros o Ho Hne Hq. destruct (quiet_trans _ _ _ Hg Hq) as (_ & Hb & _ & Hd).
    split; [congruence |]. split; [done |]. intros v. by rewrite Hcd. }
  destruct Hpath as [_ Ho _ Hq | _ _ Ho _ Hq | sys messages Hfree _ _ Hasked].
  - left. by eapply Hquiet.
  - left. by eapply Hquiet.
  - destruct Hasked as [? e _ Ho _ Hq | ? _ Ho _ Hq | ? _ Ho _ Hq
                        | ? ai _ _ _ Ho _ Hq | ? ai kept _ _ Ho _ Hstored
                        | ? e _ _ Ho _ Hq].
    + left. by eapply Hquiet.
    + left. by eapply Hquiet.
    + left. by eapply Hquiet.
    + left. by eapply Hquiet.
    + right. split; [done |].
      rewrite gated_cooldown in Hfree. split; [done |].
      destruct (stored_after_quiet _ _ _ _ _ _ _ Hg Hstored) as (_ & Hb & _ & Hd).
      split; [done |]. intros v. by rewrite Hcd.
    + left. by eapply Hquiet.
Qed.

Lemma timers_inv_on_message message w st :
  timers_inv settings st →
  timers_inv settings (state (on_message settings bot_user_id message w st)).
Proof.
  unfold timers_inv.
  destruct (on_message_cooldown_effect message w st)
    as [(_ & Hsl & Hcd) | (_ & Hfree & Hsl & Hcd)].
  - case_decide.
    + intros Hclear v. by rewrite Hcd.
    + intros [Hnd Hon]. split; [by rewrite Hsl |].
      intros task Hin. rewrite Hsl in Hin. rewrite Hcd. by apply Hon.
  - case_decide as Hd.
    + intros Hclear v. rewrite Hcd. case_decide; [| done].
      by rewrite Hd.
    + intros [Hnd Hon].
      assert (Hnew : ∀ task, task ∈ sleeping st → task.2 ≠ author_id message).
      { intros task Hin Heq. apply Hon in Hin. congruence. }
      split.
      * rewrite Hsl, fmap_app. apply NoDup_app. split; [done |].
        split; [| apply NoDup_singleton].
        intros v Hv Hv'. apply list_elem_of_fmap in Hv as (task & -> & Hin).
        apply list_elem_of_singleton in Hv'. simpl in Hv'. by apply (Hnew task).
      * intros task Hin. rewrite Hsl in Hin. rewrite Hcd.
        apply elem_of_app in Hin as [Hin | Hin].
        -- rewrite decide_False by by apply Hnew. by apply Hon.
        -- apply list_elem_of_singleton in Hin. subst task. simpl.
           rewrite decide_True by done.
           apply negb_true_iff. by apply Z.eqb_neq.
Qed.

(** *** Handlers that run one after the other *)

Lemma serial_timers_inv st :
  serial settings bot_user_id st → timers_inv settings st.
Proof.
  induction 1 as [fs st Hst | t st _ IH | message w st _ IH].
  - by eapply timers_inv_startup.
  - by apply timers_inv_run_timers.
  - by apply timers_inv_on_message.
Qed.




(** *** The engagement decision *)

(** X8. For a message of a human author whose reply reference, if any,
    resolved to a message, the gate lets the message through exactly
    when the bot is mentioned, or the message replies to a message of
    the bot, or the last recorded interaction of the author is at most
    120 seconds old and was in the channel of the message. *)
Lemma gate_admits_iff message w st :
  let last := interaction_get (author_id message) st in
  author_bot message = false →
  reference message ≠ Some None →
  outcome (on_message settings bot_user_id message w st) ≠ NotAdmitted
  ↔ (mentions_bot message = true
     ∨ reference message = Some (Some bot_user_id)
     ∨ (utcnow_gate w - time last ≤ seconds 120
        ∧ channel last = Some (channel_id message))).
Proof.
  intros last Hbot Hresolved.
  assert (Hreplied : ∃ replied, replied_to_bot bot_user_id message = Some replied ∧
            (replied = true ↔ reference message = Some (Some bot_user_id))).
  { unfold replied_to_bot. destruct (reference message) as [[a |] |]; [| done |].
    - exists (a =? bot_user_id). split; [done |]. rewrite Z.eqb_eq.
      split; [by intros -> | by intros [= ->]].
    - exists false. by split. }
  destruct Hreplied as (replied & Hreplied & Hiff).
  assert (Hopen : gate_open message w st replied = true ↔
            (mentions_bot message = true
             ∨ reference message = Some (Some bot_user_id)
             ∨ (utcnow_gate w - time last ≤ seconds 120
                ∧ channel last = Some (channel_id message)))).
  { unfold gate_open, within_timeframe, same_channel. fold last.
    rewrite !orb_true_iff, andb_true_iff, Z.leb_le, bool_decide_eq_true.
    rewrite Hiff. tauto. }
  rewrite <- Hopen.
  destruct (gate_open message w st replied) eqn:Hgate.
  - split; [done | intros _].
    assert (Hadm : admitted bot_user_id message w st) by (split; [done | by exists replied]).
    rewrite (on_message_admitted_outcome message w st Hadm).
    destruct (chat_with_openai_path message w (gated message st))
      as [_ Ho _ _ | _ _ Ho _ _ | sys messages _ _ _ Hasked];
      [congruence | congruence |].
    destruct Hasked; congruence.
  - split; [| done]. intros Hne. exfalso. apply Hne.
    by rewrite (on_message_gate message w st Hbot replied Hreplied), Hgate.
Qed.

(** When [max_cache] is positive, a handler run that relayed a reply
    is a successful exchange. *)
Lemma relayed_reply_commits message w st ai :
  1 ≤ max_cache settings →
  SendLarge (channel_id message) ai
    ∈ trace (on_message settings bot_user_id message w st) →
  outcome (on_message settings bot_user_id message w st) = Committed.
Proof.
  intros Hmax Hin.
  destruct (admitted_dec message w st) as [Hadm | Hnot].
  2:{ destruct (on_message_not_admitted message w st Hnot) as (Htr & _).
      rewrite Htr in Hin. by apply elem_of_nil in Hin. }
  rewrite (on_message_admitted_trace message w st Hadm) in Hin.
  rewrite (on_message_admitted_outcome message w st Hadm).
  destruct (chat_with_openai_path message w (gated message st))
    as [_ _ Htr _ | _ _ _ Htr _ | sys messages _ _ _ Hasked].
  - rewrite Htr in Hin. in_trace Hin.
  - rewrite Htr in Hin. in_trace Hin.
  - destruct Hasked as [? e _ _ Htr _ | ? _ _ Htr _ | ? _ _ Htr _
                        | ? ai' _ Hle _ _ _ _ | ? ai' kept _ _ Ho _ _
                        | ? e _ _ _ Htr _].
    + rewrite Htr in Hin. in_trace Hin.
    + rewrite Htr in Hin. in_trace Hin.
    + rewrite Htr in Hin. in_trace Hin.
    + lia.
    + done.
    + rewrite Htr in Hin. in_trace Hin.
Qed.

(** X18. A successful exchange makes the author's cache longer, by one
    turn when it held [max_cache] turns or more and by two otherwise. *)
Lemma successful_exchange_grows message w st :
  let u := author_id message in
  let r := on_message settings bot_user_id message w st in
  outcome r = Committed →
  Z.of_nat (length (cache_read u (state r))) =
  Z.of_nat (length (cache_read u st))
  + (if max_cache settings <=? Z.of_nat (length (cache_read u st)) then 1 else 2).
Proof.
  intros u r Hout.
  destruct (committed_exchange message w st Hout)
    as (sys & ai & kept & _ & _ & Hkept & Hcache).
  subst u r. cbv zeta in Hkept, Hcache.
  rewrite Hcache, decide_True by done.
  rewrite length_app. simpl.
  destruct (max_cache settings <=? _).
  - destruct Hkept as [oldest ->]. simpl. lia.
  - subst kept. lia.
Qed.

End Properties.

(** ** Concrete runs *)

Import Scenario.

(** *** Cache size *)

(** C1.  With [max_cache = 5], the third successful exchange of a user
    takes the cache from four turns to six, and after six successful
    exchanges it holds nine turns: one turn is evicted where two are
    appended. *)
Theorem cache_outgrows_max_cache :
  let st2 := run default_settings bot (exchanges 2) fresh in
  let third := deliver default_settings bot (mention "hi")
                 (world_at 20 disk (Reply "yo")) st2 in
  max_cache default_settings = 5 ∧
  length (cache_read user st2) = 4%nat ∧
  outcome third = Committed ∧
  length (cache_read user (state third)) = 6%nat ∧
  run default_settings bot (exchanges 3) fresh = state third ∧
  length (cache_read user (run default_settings bot (exchanges 6) fresh)) = 9%nat.
Proof. vm_compute. repeat split; reflexivity. Qed.

(** *** Witnesses *)

Lemma bot_author_is_ignored_witness :
  author_bot bot_message = true ∧
  on_message default_settings bot bot_message (world_at 0 disk (Reply "yo")) fresh =
    {| state := fresh; trace := []; outcome := BotIgnored |}.
Proof.
  split; [reflexivity |].
  apply (bot_author_is_ignored default_settings bot bot_message). reflexivity.
Defined.

Lemma prompt_is_system_cache_user_witness :
  let request :=
    [{| role := "system"; msg_content := "Be kind." |};
     {| role := "user"; msg_content := "hi" |};
     {| role := "assistant"; msg_content := "yo" |};
     {| role := "user"; msg_content := "and now?" |}] in
  let r := on_message default_settings bot (mention "and now?")
             (world_at 10 disk (Reply "yo")) rested in
  ChatCompletion "gpt-3.5-turbo-16k" request ∈ trace r ∧
  ∃ sys,
    system_message default_settings disk = Some sys ∧
    "gpt-3.5-turbo-16k" = openai_model default_settings ∧
    request =
      [{| role := "system"; msg_content := sys |}]
        ++ map (λ turn, {| role := turn.1; msg_content := turn.2 |})
               (cache_read user rested)
        ++ [{| role := "user"; msg_content := "and now?" |}].
Proof.
  intros request r.
  assert (Hin : ChatCompletion "gpt-3.5-turbo-16k" request ∈ trace r).
  { apply list_elem_of_In. vm_compute. right. left. reflexivity. }
  split; [exact Hin |].
  exact (prompt_is_system_cache_user default_settings bot (mention "and now?")
           (world_at 10 disk (Reply "yo")) rested _ _ Hin).
Defined.

Lemma successful_exchange_appends_pair_witness :
  let st := run default_settings bot (exchanges 3) fresh in
  let w := world_at 30 disk (Reply "sure") in
  let st' := run_timers (utcnow_gate w) st in
  let r := on_message default_settings bot (mention "more") w st' in
  outcome r = Committed ∧
  ∃ sys ai kept,
    system_message default_settings (files w) = Some sys ∧
    create w (openai_model default_settings)
      (build_messages sys (cache_read user st') "more") = Reply ai ∧
    (if max_cache default_settings <=? Z.of_nat (length (cache_read user st'))
     then ∃ oldest, cache_read user st' = oldest :: kept
     else kept = cache_read user st') ∧
    cache_read user (state r) = kept ++ [("user", "more"); ("assistant", ai)] ∧
    ∀ v, v ≠ user → cache_read v (state r) = cache_read v st'.
Proof.
  intros st w st' r.
  assert (Hout : outcome r = Committed) by (vm_compute; reflexivity).
  split; [exact Hout |].
  exact (successful_exchange_appends_pair default_settings bot (mention "more") w st' Hout).
Defined.

(** *** Failed exchanges *)

(** A first mention whose completion fails with an [OpenAIError]: the
    author's interaction record is no longer the one read before the
    attempt. *)
Lemma failed_exchange_moves_interaction :
  let w := world_at 0 disk (OpenAIError "overloaded") in
  let r := on_message default_settings bot (mention "hi") w fresh in
  outcome r = ApiError ∧
  create w (openai_model default_settings)
    (build_messages "Be kind." (cache_read user fresh) "hi") = OpenAIError "overloaded" ∧
  interaction_get user fresh = never_interacted ∧
  interaction_get user (state r) = {| time := 500000; channel := Some room |} ∧
  interaction_get user (state r) ≠ interaction_get user fresh.
Proof. vm_compute. repeat split; try reflexivity. discriminate. Qed.

Lemma failed_exchange_state_witness :
  let w := world_at 0 disk (OpenAIError "overloaded") in
  let r := on_message default_settings bot (mention "hi") w fresh in
  completion_failed w r ∧
  (∀ v, cache_read v (state r) = cache_read v fresh) ∧
  (∀ v, is_on_cooldown v (state r) = is_on_cooldown v fresh) ∧
  sleeping (state r) = sleeping fresh ∧
  (∀ v, v ≠ user → interaction_get v (state r) = interaction_get v fresh) ∧
  ((returned r ∧
    interaction_get user (state r) =
      {| time := utcnow_done w; channel := Some room |})
   ∨ (outcome r = Raised HTTPException ∧
      interaction_get user (state r) = interaction_get user fresh ∧
      ∃ text, Send room text ∈ trace r ∧ too_long text = true)).
Proof.
  intros w r.
  assert (Hfail : completion_failed w r).
  { exists "gpt-3.5-turbo-16k",
      [{| role := "system"; msg_content := "Be kind." |};
       {| role := "user"; msg_content := "hi" |}].
    split.
    - apply list_elem_of_In. vm_compute. right. left. reflexivity.
    - intros ai. vm_compute. discriminate. }
  split; [exact Hfail |].
  exact (failed_exchange_state default_settings bot (mention "hi") w fresh Hfail).
Defined.

(** The same mention when the text of the error has 3000 characters:
    the notice is asked of Discord and refused, the exception leaves the
    handler, and the interaction record is the one read before. *)
Lemma refused_notice_leaves_the_handler :
  let w := world_at 0 disk (OpenAIError long_error) in
  let r := on_message default_settings bot (mention "hi") w fresh in
  String.length long_error = 3000%nat ∧
  outcome r = Raised HTTPException ∧
  trace r =
    [KeepTyping room;
     ChatCompletion "gpt-3.5-turbo-16k"
       [{| role := "system"; msg_content := "Be kind." |};
        {| role := "user"; msg_content := "hi" |}];
     CancelTyping;
     Send room ("An error occurred: " +:+ long_error)] ∧
  interaction_get user (state r) = interaction_get user fresh ∧
  cache_read user (state r) = cache_read user fresh ∧
  is_on_cooldown user (state r) = is_on_cooldown user fresh.
Proof. vm_compute. repeat split; reflexivity. Qed.

(** *** Cooldown violations *)

(** A mention one second after an answered one: the author is on
    cooldown, gets the wait notice, and the interaction record moves
    from 0.5 s to 1.5 s. *)
Lemma cooldown_violation_moves_interaction :
  let w := world_at 1 disk (Reply "yo") in
  let r := on_message default_settings bot (mention "again") w after_first_exchange in
  is_on_cooldown user after_first_exchange = true ∧
  outcome r = Throttled ∧
  interaction_get user after_first_exchange = {| time := 500000; channel := Some room |} ∧
  interaction_get user (state r) = {| time := 1500000; channel := Some room |} ∧
  interaction_get user (state r) ≠ interaction_get user after_first_exchange.
Proof. vm_compute. repeat split; try reflexivity. discriminate. Qed.

Lemma cooldown_violation_state_witness :
  let w := world_at 1 disk (Reply "yo") in
  let st := after_first_exchange in
  let r := on_message default_settings bot (mention "again") w st in
  is_on_cooldown user st = true ∧
  admitted bot (mention "again") w st ∧
  outcome r = Throttled ∧
  trace r = [Send room "Please wait a bit before chatting again!"] ∧
  (∀ v, cache_read v (state r) = cache_read v st) ∧
  (∀ v, is_on_cooldown v (state r) = is_on_cooldown v st) ∧
  sleeping (state r) = sleeping st ∧
  interaction_get user (state r) =
    {| time := utcnow_done w; channel := Some room |} ∧
  (∀ v, v ≠ user → interaction_get v (state r) = interaction_get v st).
Proof.
  intros w st r.
  assert (Hcd : is_on_cooldown user st = true) by (vm_compute; reflexivity).
  assert (Hadm : admitted bot (mention "again") w st).
  { split; [reflexivity |]. exists false. split; reflexivity. }
  split; [exact Hcd |]. split; [exact Hadm |].
  exact (cooldown_violation_state default_settings bot (mention "again") w st Hcd Hadm).
Defined.

(** *** The engagement decision *)

(** C5.  A human's message that mentions the bot and replies to a
    message deleted since is not handled: computing [replied_to_bot]
    raises before the gate is reached, nothing is sent and no
    completion is requested. *)
Theorem mention_on_dangling_reply_is_dropped :
  let message := dangling_reply true in
  let r := on_message default_settings bot message (world_at 0 disk (Reply "yo")) fresh in
  author_bot message = false ∧
  mentions_bot message = true ∧
  outcome r = Raised AttributeError ∧
  trace r = [] ∧
  state r = fresh.
Proof. vm_compute. repeat split; reflexivity. Qed.

(** *** The system message *)

(** C7.  The text read at import time is ["Old text."]; the first
    request carries the text that [system_message_file] holds when it
    is made, and after the file was edited the next request carries the
    edited text. *)
Theorem system_message_is_read_per_request :
  let r1 := deliver default_settings bot (mention "hi")
              (world_at 0 disk (Reply "yo")) fresh in
  let r2 := deliver default_settings bot (mention "hi")
              (world_at 10 edited_disk (Reply "yo")) (state r1) in
  startup disk = Some fresh ∧
  SYSTEM_MESSAGE fresh = "Old text." ∧
  trace r1 =
    [KeepTyping room;
     ChatCompletion "gpt-3.5-turbo-16k"
       [{| role := "system"; msg_content := "Be kind." |};
        {| role := "user"; msg_content := "hi" |}];
     CancelTyping;
     SendLarge room "yo"] ∧
  SYSTEM_MESSAGE (state r1) = "Old text." ∧
  trace r2 =
    [KeepTyping room;
     ChatCompletion "gpt-3.5-turbo-16k"
       [{| role := "system"; msg_content := "Be brief." |};
        {| role := "user"; msg_content := "hi" |};
        {| role := "assistant"; msg_content := "yo" |};
        {| role := "user"; msg_content := "hi" |}];
     CancelTyping;
     SendLarge room "yo"].
Proof. vm_compute. repeat split; reflexivity. Qed.

(** *** Exceptions *)

(** C9.  Two exceptions leave [on_message]: the [AttributeError] of a
    reply reference without a resolved message, raised in the gate, and
    the [OSError] of a system-message file that cannot be opened,
    raised while the prompt is built, after the typing task was created
    and with nothing cancelling it. *)
Theorem exceptions_leave_the_handler :
  let r1 := on_message default_settings bot (dangling_reply false)
              (world_at 0 disk (Reply "yo")) fresh in
  let r2 := on_message default_settings bot (mention "hi")
              (world_at 0 ∅ (Reply "yo")) fresh in
  outcome r1 = Raised AttributeError ∧
  trace r1 = [] ∧
  outcome r2 = Raised OSError ∧
  trace r2 = [KeepTyping room].
Proof. vm_compute. repeat split; reflexivity. Qed.

(** *** Cooldown timers *)



(** ** Long replies *)

Section Chunks.

Context {A : Type}.

Lemma range_from_elem fuel start stop step i :
  i ∈ range_from fuel start stop step → (start ≤ i < stop)%nat.
Proof.
  revert start. induction fuel as [| fuel IH]; intros start Hin; simpl in Hin.
  { by apply elem_of_nil in Hin. }
  destruct (start <? stop)%nat eqn:Hlt; [| by apply elem_of_nil in Hin].
  apply Nat.ltb_lt in Hlt.
  apply elem_of_cons in Hin as [-> | Hin]; [lia |].
  apply IH in Hin. lia.
Qed.

(** The [k]-th element of the range is [start + k * step], as long as
    that is below [stop]. *)
Lemma range_from_lookup fuel start stop step k :
  (1 ≤ step)%nat → (stop - start ≤ fuel)%nat →
  range_from fuel start stop step !! k =
  if (start + k * step <? stop)%nat then Some (start + k * step)%nat else None.
Proof.
  intros Hstep. revert start k.
  induction fuel as [| fuel IH]; intros start k Hfuel; simpl.
  - destruct (start + k * step <? stop)%nat eqn:Hlt; [| done].
    apply Nat.ltb_lt in Hlt. lia.
  - destruct (start <? stop)%nat eqn:Hlt.
    + apply Nat.ltb_lt in Hlt. destruct k as [| k]; simpl.
      * rewrite Nat.add_0_r. by apply Nat.ltb_lt in Hlt as ->.
      * rewrite IH by lia.
        replace (start + step + k * step)%nat with (start + (step + k * step))%nat by lia.
        done.
    + apply Nat.ltb_ge in Hlt.
      destruct (start + k * step <? stop)%nat eqn:Hlt'; [| done].
      apply Nat.ltb_lt in Hlt'. lia.
Qed.

(** The range has just enough elements to reach [stop]. *)
Lemma range_from_length fuel start stop step :
  (1 ≤ step)%nat → (start ≤ stop)%nat → (stop - start ≤ fuel)%nat →
  let n := length (range_from fuel start stop step) in
  (stop ≤ start + n * step < stop + step)%nat.
Proof.
  intros Hstep. revert start.
  induction fuel as [| fuel IH]; intros start Hle Hfuel; simpl.
  - lia.
  - destruct (start <? stop)%nat eqn:Hlt; simpl.
    + apply Nat.ltb_lt in Hlt.
      destruct (Nat.le_gt_cases (start + step) stop) as [Hfit | Hover].
      * specialize (IH (start + step)%nat Hfit ltac:(lia)). simpl in IH. lia.
      * assert (Hnil : range_from fuel (start + step) stop step = []).
        { destruct fuel as [| fuel']; [done |]. cbn [range_from].
          assert ((start + step <? stop)%nat = false) as -> by (apply Nat.ltb_ge; lia).
          done. }
        rewrite Hnil. simpl. lia.
    + apply Nat.ltb_ge in Hlt. lia.
Qed.

(** Slices taken at the elements of the range, put end to end, give
    the list back from [start] on. *)
Lemma range_from_slices (l : list A) fuel start step :
  (1 ≤ step)%nat → (length l - start ≤ fuel)%nat →
  concat ((λ i, take step (drop i l)) <$> range_from fuel start (length l) step)
  = drop start l.
Proof.
  intros Hstep. revert start.
  induction fuel as [| fuel IH]; intros start Hfuel; simpl.
  - symmetry. apply drop_ge. lia.
  - destruct (start <? length l)%nat eqn:Hlt; simpl.
    + rewrite IH by (apply Nat.ltb_lt in Hlt; lia).
      rewrite <- drop_drop. apply take_drop.
    + apply Nat.ltb_ge in Hlt. symmetry. by apply drop_ge.
Qed.

End Chunks.

Lemma string_length_of_list (l : list Ascii.ascii) :
  String.length (String.string_of_list_ascii l) = length l.
Proof. induction l as [| c l IH]; simpl; [done | by rewrite IH]. Qed.

Lemma list_length_of_string (s : string) :
  length (String.list_ascii_of_string s) = String.length s.
Proof. induction s as [| c s IH]; simpl; [done | by rewrite IH]. Qed.

Lemma string_of_list_app (a b : list Ascii.ascii) :
  String.string_of_list_ascii (a ++ b) =
  String.string_of_list_ascii a +:+ String.string_of_list_ascii b.
Proof. induction a as [| c a IH]; simpl; [done | by rewrite IH]. Qed.

Lemma string_app_empty (s : string) : s +:+ "" = s.
Proof.
  induction s as [| c s IH]; [done |].
  change (String c s +:+ "") with (String c (s +:+ "")). by rewrite IH.
Qed.

(** [''.join] of strings made from lists is the string made from the
    lists put end to end. *)
Lemma join_of_lists (ls : list (list Ascii.ascii)) :
  String.concat "" (String.string_of_list_ascii <$> ls) =
  String.string_of_list_ascii (concat ls).
Proof.
  induction ls as [| l ls IH]; [done |].
  rewrite fmap_cons. cbn [concat]. rewrite string_of_list_app, <- IH.
  destruct ls as [| l' ls]; simpl; [by rewrite string_app_empty | done].
Qed.

(** With a positive limit, the chunks are the slices of length [limit]
    taken at 0, [limit], [2 * limit], ... *)
Lemma split_message_positive content limit :
  0 < limit →
  let chars := String.list_ascii_of_string content in
  split_message content limit =
  Some (String.string_of_list_ascii
          <$> ((λ i, take (Z.to_nat limit) (drop i chars))
                 <$> range_from (length chars) 0 (length chars) (Z.to_nat limit))).
Proof.
  intros Hpos chars. unfold split_message.
  assert ((limit =? 0) = false) as -> by (apply Z.eqb_neq; lia).
  assert ((limit <? 0) = false) as -> by (apply Z.ltb_ge; lia).
  fold chars. by rewrite <- list_fmap_compose.
Qed.

(** *** [split_message] *)

(** X1. With a positive limit, [split_message] returns chunks that,
    joined in order, are the content. *)
Theorem split_message_joins content limit :
  0 < limit →
  ∃ chunks, split_message content limit = Some chunks ∧
            String.concat "" chunks = content.
Proof.
  intros Hpos. eexists. split; [by apply split_message_positive |].
  rewrite join_of_lists, range_from_slices by lia.
  apply String.string_of_list_ascii_of_string.
Qed.

(** X2. With a positive limit, no chunk is empty, none is longer than
    the limit, and every chunk but the last has exactly [limit]
    characters. *)
Theorem split_message_chunk_sizes content limit chunks :
  0 < limit →
  split_message content limit = Some chunks →
  (∀ c, c ∈ chunks → 1 ≤ Z.of_nat (String.length c) ≤ limit) ∧
  (∀ k c, chunks !! k = Some c → (S k < length chunks)%nat →
          Z.of_nat (String.length c) = limit).
Proof.
  intros Hpos Hsplit.
  rewrite split_message_positive in Hsplit by done. injection Hsplit as <-.
  set (chars := String.list_ascii_of_string content).
  set (n := Z.to_nat limit).
  assert (Hn : (1 ≤ n)%nat) by lia.
  split.
  - intros c Hc.
    apply list_elem_of_fmap in Hc as (l & -> & Hl).
    apply list_elem_of_fmap in Hl as (i & -> & Hi).
    apply range_from_elem in Hi.
    rewrite string_length_of_list, length_take, length_drop. lia.
  - intros k c Hk Hlast.
    rewrite !length_fmap in Hlast.
    rewrite !list_lookup_fmap in Hk.
    assert (Hnext : is_Some (range_from (length chars) 0 (length chars) n !! S k))
      by (by apply lookup_lt_is_Some).
    rewrite range_from_lookup in Hnext, Hk by lia.
    destruct (0 + S k * n <? length chars)%nat eqn:Hlt';
      [| by destruct Hnext].
    apply Nat.ltb_lt in Hlt'.
    assert ((0 + k * n <? length chars)%nat = true) as Hlt by (apply Nat.ltb_lt; lia).
    rewrite Hlt in Hk. simpl in Hk. injection Hk as <-.
    rewrite string_length_of_list, length_take, length_drop. lia.
Qed.

(** X3. With a positive limit, the number of chunks is the length of
    the content divided by the limit, rounded up: [n] chunks cover the
    content and [n - 1] do not. *)
Theorem split_message_count content limit chunks :
  0 < limit →
  split_message content limit = Some chunks →
  let n := Z.of_nat (length chunks) in
  let len := Z.of_nat (String.length content) in
  len ≤ n * limit < len + limit.
Proof.
  intros Hpos Hsplit n len. subst n len.
  rewrite split_message_positive in Hsplit by done. injection Hsplit as <-.
  rewrite !length_fmap, <- list_length_of_string.
  set (chars := String.list_ascii_of_string content).
  pose proof (range_from_length (length chars) 0 (length chars) (Z.to_nat limit)
                ltac:(lia) ltac:(lia) ltac:(lia)) as Hlen.
  simpl in Hlen. nia.
Qed.

(** X4. A content that is not empty and fits in the limit comes back
    as one chunk, the content itself. *)
Theorem split_message_short content limit :
  1 ≤ Z.of_nat (String.length content) ≤ limit →
  split_message content limit = Some [content].
Proof.
  intros Hshort.
  rewrite split_message_positive by lia.
  rewrite list_length_of_string.
  destruct (String.length content) as [| m] eqn:Hm; [lia |].
  cbn [range_from]. assert ((0 <? S m)%nat = true) as -> by (apply Nat.ltb_lt; lia).
  assert (Hnil : range_from m (0 + Z.to_nat limit) (S m) (Z.to_nat limit) = []).
  { destruct m as [| m']; [done |]. cbn [range_from].
    assert ((0 + Z.to_nat limit <? S (S m'))%nat = false) as ->
      by (apply Nat.ltb_ge; lia).
    done. }
  rewrite Hnil. cbn [fmap list_fmap]. do 2 f_equal.
  rewrite drop_0, take_ge by (rewrite list_length_of_string; lia).
  apply String.string_of_list_ascii_of_string.
Qed.

(** *** [send_large_message] *)

(** X5. [send_large_message] sends, in order and all to the given
    channel, texts of 1 to 2000 characters that joined are the content;
    it sends nothing exactly when the content is empty. *)
Theorem send_large_message_sends_content ch content :
  ∃ chunks,
    send_large_message ch content = Send ch <$> chunks ∧
    String.concat "" chunks = content ∧
    (∀ c, c ∈ chunks → 1 ≤ Z.of_nat (String.length c) ≤ 2000) ∧
    (send_large_message ch content = [] ↔ content = "").
Proof.
  unfold send_large_message.
  rewrite split_message_positive by lia. cbn [default from_option id].
  set (chars := String.list_ascii_of_string content).
  eexists. split; [reflexivity |].
  split.
  { rewrite join_of_lists, range_from_slices by lia.
    apply String.string_of_list_ascii_of_string. }
  split.
  { intros c Hc.
    apply list_elem_of_fmap in Hc as (l & -> & Hl).
    apply list_elem_of_fmap in Hl as (i & -> & Hi).
    apply range_from_elem in Hi.
    rewrite string_length_of_list, length_take, length_drop. lia. }
  split.
  - intros Hnil. apply (f_equal length) in Hnil. rewrite !length_fmap in Hnil.
    pose proof (range_from_length (length chars) 0 (length chars) (Z.to_nat 2000)
                  ltac:(lia) ltac:(lia) ltac:(lia)) as Hlen.
    simpl in Hlen, Hnil. rewrite Hnil in Hlen.
    assert (Hzero : length chars = 0%nat) by lia.
    subst chars. destruct content; [done | discriminate Hzero].
  - intros ->. done.
Qed.

(** ** The session logic beyond single exchanges *)

Section Session.

Variable settings : Settings.
Variable bot_user_id : Z.

(** *** Shared facts *)

(** For a human's message whose reference, if any, is resolved, the
    handler stops at the gate exactly when the gate is closed. *)
Lemma gate_closed_iff message w st replied :
  author_bot message = false →
  replied_to_bot bot_user_id message = Some replied →
  outcome (on_message settings bot_user_id message w st) = NotAdmitted
  ↔ gate_open message w st replied = false.
Proof.
  intros Hbot Hreplied.
  destruct (gate_open message w st replied) eqn:Hgate.
  - split; [| done]. intros Hout.
    assert (Hadm : admitted bot_user_id message w st)
      by (split; [done | by exists replied]).
    rewrite (on_message_admitted_outcome settings bot_user_id message w st Hadm) in Hout.
    destruct (chat_with_openai_path settings message w (gated message st))
      as [_ Ho _ _ | _ _ Ho _ _ | sys messages _ _ _ Hasked];
      [congruence | congruence |].
    destruct Hasked; congruence.
  - split; [done | intros _].
    by rewrite (on_message_gate settings bot_user_id message w st Hbot replied Hreplied),
      Hgate.
Qed.

(** What one handler run does to caches, cooldowns and timers. *)
Lemma on_message_effect message w st :
  let u := author_id message in
  let r := on_message settings bot_user_id message w st in
  (outcome r ≠ Committed ∧
   (∀ v, cache_read v (state r) = cache_read v st) ∧
   (∀ v, is_on_cooldown v (state r) = is_on_cooldown v st) ∧
   sleeping (state r) = sleeping st)
  ∨ (outcome r = Committed ∧
     is_on_cooldown u st = false ∧
     ∃ ai kept,
       (if max_cache settings <=? Z.of_nat (length (cache_read u st))
        then ∃ oldest, cache_read u st = oldest :: kept
        else kept = cache_read u st) ∧
       (∀ v, cache_read v (state r) =
             if decide (v = u)
             then kept ++ [("user", content message); ("assistant", ai)]
             else cache_read v st) ∧
       (∀ v, is_on_cooldown v (state r) =
             if decide (v = u) then negb (cooldown_time settings =? 0)
             else is_on_cooldown v st) ∧
       sleeping (state r) =
         sleeping st ++ [(utcnow_done w + seconds (cooldown_time settings), u)]).
Proof.
  intros u r. subst u r.
  destruct (admitted_dec bot_user_id message w st) as [Hadm | Hnot].
  2:{ destruct (on_message_not_admitted settings bot_user_id message w st Hnot)
        as (_ & (Hca & Hcd & _ & Hsl) & Ho).
      left. split; [| done]. destruct Ho as [-> | [-> | ->]]; done. }
  destruct (on_message_admitted settings bot_user_id message w st Hadm) as [Hpath Heq].
  pose proof (quiet_gated message st) as Hg.
  set (r0 := chat_with_openai settings message w (gated message st)) in *.
  set (r := on_message settings bot_user_id message w st) in *.
  assert (Hst : sleeping (state r) = sleeping (state r0) ∧
                (∀ v, is_on_cooldown v (state r) = is_on_cooldown v (state r0)) ∧
                (∀ v, cache_read v (state r) = cache_read v (state r0)) ∧
                outcome r = outcome r0).
  { rewrite Heq. by destruct (outcome r0) eqn:Ho. }
  destruct Hst as (Hsl & Hcd & Hca & Ho).
  assert (Hquiet : outcome r0 ≠ Committed → quiet (gated message st) (state r0) →
            outcome r ≠ Committed ∧
            (∀ v, cache_read v (state r) = cache_read v st) ∧
            (∀ v, is_on_cooldown v (state r) = is_on_cooldown v st) ∧
            sleeping (state r) = sleeping st).
  { intros Hne Hq. destruct (quiet_trans _ _ _ Hg Hq) as (Ha & Hb & _ & Hd).
    split; [congruence |]. split; [intros v; by rewrite Hca |].
    split; [intros v; by rewrite Hcd | congruence]. }
  destruct Hpath as [_ Ho' _ Hq | _ _ Ho' _ Hq | sys messages Hfree _ _ Hasked].
  - left. apply Hquiet; [congruence | done].
  - left. apply Hquiet; [congruence | done].
  - destruct Hasked as [? e _ Ho' _ Hq | ? _ Ho' _ Hq | ? _ Ho' _ Hq
                        | ? ai _ _ _ Ho' _ Hq | ? ai kept _ Hkept Ho' _ Hstored
                        | ? e _ _ Ho' _ Hq].
    + left. apply Hquiet; [congruence | done].
    + left. apply Hquiet; [congruence | done].
    + left. apply Hquiet; [congruence | done].
    + left. apply Hquiet; [congruence | done].
    + right. split; [congruence |].
      rewrite gated_cooldown in Hfree. split; [done |].
      rewrite gated_cache in Hkept.
      destruct (stored_after_quiet settings _ _ _ _ _ _ _ Hg Hstored)
        as (Ha & Hb & _ & Hd).
      exists ai, kept. split; [done |].
      split; [intros v; by rewrite Hca |].
      split; [intros v; by rewrite Hcd | congruence].
    + left. apply Hquiet; [congruence | done].
Qed.

(** The request of a handler run, if it makes one: who made it, from
    which state, and with which messages. *)
Lemma requested_messages message w st model messages :
  ChatCompletion model messages
    ∈ trace (on_message settings bot_user_id message w st) →
  admitted bot_user_id message w st ∧
  is_on_cooldown (author_id message) st = false ∧
  ∃ sys, system_message settings (files w) = Some sys ∧
         model = openai_model settings ∧
         messages = build_messages sys (cache_read (author_id message) st)
                      (content message).
Proof.
  intros Hin.
  destruct (admitted_dec bot_user_id message w st) as [Hadm | Hnot].
  2:{ destruct (on_message_not_admitted settings bot_user_id message w st Hnot)
        as (Htr & _).
      rewrite Htr in Hin. by apply elem_of_nil in Hin. }
  split; [done |].
  rewrite (on_message_admitted_trace settings bot_user_id message w st Hadm) in Hin.
  destruct (chat_with_openai_path settings message w (gated message st))
    as [_ _ Htr _ | _ _ _ Htr _ | sys messages' Hfree Hsys Hmsgs Hasked].
  - rewrite Htr in Hin. in_trace Hin.
  - rewrite Htr in Hin. in_trace Hin.
  - rewrite gated_cooldown in Hfree. rewrite gated_cache in Hmsgs.
    split; [done |]. exists sys. split; [done |]. rewrite <- Hmsgs.
    destruct Hasked as [? e _ _ Htr _ | ? _ _ Htr _ | ? _ _ Htr _
                        | ? ai _ _ _ _ Htr _ | ? ai kept _ _ _ Htr _
                        | ? e _ _ _ Htr _];
      rewrite Htr in Hin; in_trace Hin; by injection Hin as -> ->.
Qed.

(** A handler run that got past the gate and returned has overwritten
    the author's interaction record. *)
Lemma returned_run_records message w st :
  admitted bot_user_id message w st →
  returned (on_message settings bot_user_id message w st) →
  ∀ v, interaction_get v (state (on_message settings bot_user_id message w st)) =
       if decide (v = author_id message)
       then {| time := utcnow_done w; channel := Some (channel_id message) |}
       else interaction_get v st.
Proof.
  intros Hadm Hret v.
  destruct (on_message_admitted settings bot_user_id message w st Hadm) as [Hpath Heq].
  unfold returned in Hret. rewrite Heq in *.
  set (r0 := chat_with_openai settings message w (gated message st)) in *.
  assert (Hkeep : interaction_get v (state r0) = interaction_get v st).
  { rewrite <- (gated_interaction message st v).
    destruct Hpath as [_ _ _ Hq | _ _ _ _ Hq | sys messages _ _ _ Hasked];
      [apply Hq | apply Hq |].
    destruct Hasked as [? e _ _ _ Hq | ? _ _ _ Hq | ? _ _ _ Hq
                        | ? ai _ _ _ _ _ Hq | ? ai kept _ _ _ _ Hq
                        | ? e _ _ _ _ Hq];
      apply Hq. }
  destruct (outcome r0) eqn:Ho; try (rewrite record_interaction_get, Hkeep; done).
  by destruct (Hret e).
Qed.

(** The interaction record of anyone but the author is not touched. *)
Lemma on_message_other_interaction message w st v :
  v ≠ author_id message →
  interaction_get v (state (on_message settings bot_user_id message w st))
  = interaction_get v st.
Proof.
  intros Hv.
  destruct (admitted_dec bot_user_id message w st) as [Hadm | Hnot].
  2:{ by destruct (on_message_not_admitted settings bot_user_id message w st Hnot)
        as (_ & (_ & _ & Hi & _) & _). }
  destruct (on_message_admitted settings bot_user_id message w st Hadm)
    as [Hpath Heq].
  rewrite Heq.
  set (r0 := chat_with_openai settings message w (gated message st)) in *.
  assert (Hkeep : interaction_get v (state r0) = interaction_get v st).
  { rewrite <- (gated_interaction message st v).
    destruct Hpath as [_ _ _ Hq | _ _ _ _ Hq | sys messages _ _ _ Hasked];
      [apply Hq | apply Hq |].
    destruct Hasked as [? e _ _ _ Hq | ? _ _ _ Hq | ? _ _ _ Hq
                        | ? ai _ _ _ _ _ Hq | ? ai kept _ _ _ _ Hq
                        | ? e _ _ _ _ Hq];
      apply Hq. }
  destruct (outcome r0);
    try (rewrite record_interaction_get, decide_False by done); done.
Qed.

(** *** Users do not see each other *)

(** X6. Whatever happens while the message of one user is handled,
    another user's cache, cooldown and interaction record read as they
    did before. *)
Theorem other_users_untouched message w st v :
  v ≠ author_id message →
  let r := on_message settings bot_user_id message w st in
  cache_read v (state r) = cache_read v st ∧
  is_on_cooldown v (state r) = is_on_cooldown v st ∧
  interaction_get v (state r) = interaction_get v st.
Proof.
  intros Hv r. subst r.
  split; [| split; [| by apply on_message_other_interaction]].
  - destruct (on_message_effect message w st)
      as [(_ & Hca & _) | (_ & _ & ai & kept & _ & Hca & _)].
    + apply Hca.
    + by rewrite Hca, decide_False.
  - destruct (on_message_effect message w st)
      as [(_ & _ & Hcd & _) | (_ & _ & ai & kept & _ & _ & Hcd & _)].
    + apply Hcd.
    + by rewrite Hcd, decide_False.
Qed.

(** A handler run that did not get past the gate. *)
Lemma stopped_at_gate message w st :
  (outcome (on_message settings bot_user_id message w st) = NotAdmitted
   ∨ outcome (on_message settings bot_user_id message w st) = Raised AttributeError) →
  ¬ admitted bot_user_id message w st.
Proof.
  intros Hout Hadm.
  rewrite (on_message_admitted_outcome settings bot_user_id message w st Hadm) in Hout.
  destruct (chat_with_openai_path settings message w (gated message st))
    as [_ Ho _ _ | _ _ Ho _ _ | sys messages _ _ _ Hasked].
  - destruct Hout; congruence.
  - destruct Hout; congruence.
  - destruct Hasked; destruct Hout; congruence.
Qed.

(** The trace of a handler run that got past the gate is one of six. *)
Lemma admitted_trace message w st :
  admitted bot_user_id message w st →
  let u := author_id message in
  let ch := channel_id message in
  let r := on_message settings bot_user_id message w st in
  (outcome r = Throttled ∧ is_on_cooldown u st = true ∧
   trace r = [Send ch "Please wait a bit before chatting again!"])
  ∨ (outcome r = Raised OSError ∧ is_on_cooldown u st = false ∧
     system_message settings (files w) = None ∧
     trace r = [KeepTyping ch])
  ∨ ∃ sys,
      is_on_cooldown u st = false ∧
      system_message settings (files w) = Some sys ∧
      let messages := build_messages sys (cache_read u st) (content message) in
      let ask := ChatCompletion (openai_model settings) messages in
      let answer := create w (openai_model settings) messages in
      (∃ e, answer = OpenAIError e ∧
            (outcome r = ApiError ∨ outcome r = Raised HTTPException) ∧
            trace r = [KeepTyping ch; ask; CancelTyping;
                       Send ch ("An error occurred: " +:+ e)])
      ∨ (answer = OtherError ∧ outcome r = Unexpected ∧
         trace r = [KeepTyping ch; ask; CancelTyping])
      ∨ (answer = Malformed ∧ outcome r = Unexpected ∧
         trace r = [KeepTyping ch; ask; CancelTyping; CancelTyping])
      ∨ (∃ ai, answer = Reply ai ∧
           ((outcome r = Unexpected ∧ max_cache settings ≤ 0 ∧ cache_read u st = [] ∧
             trace r = [KeepTyping ch; ask; CancelTyping; SendLarge ch ai; CancelTyping])
            ∨ (outcome r = Committed ∧
               trace r = [KeepTyping ch; ask; CancelTyping; SendLarge ch ai]))).
Proof.
  intros Hadm u ch r. subst u ch r.
  rewrite (on_message_admitted_outcome settings bot_user_id message w st Hadm),
    (on_message_admitted_trace settings bot_user_id message w st Hadm).
  destruct (chat_with_openai_path settings message w (gated message st))
    as [Hcd Ho Htr _ | Hcd Hsys Ho Htr _ | sys messages Hcd Hsys Hmsgs Hasked];
    rewrite gated_cooldown in Hcd.
  - left. done.
  - right; left. done.
  - right; right. exists sys. split; [done |]. split; [done |].
    rewrite gated_cache in Hmsgs. cbv zeta. rewrite <- Hmsgs.
    destruct Hasked as [? e Hc Ho Htr _ | ? Hc Ho Htr _ | ? Hc Ho Htr _
                        | ? ai Hc Hle Hnil Ho Htr _ | ? ai kept Hc _ Ho Htr _
                        | ? e Hc _ Ho Htr _].
    + left. exists e. split; [done |]. split; [by left | done].
    + right; left. done.
    + right; right; left. done.
    + right; right; right. exists ai. split; [done |]. left.
      rewrite gated_cache in Hnil. done.
    + right; right; right. exists ai. split; [done |]. by right.
    + left. exists e. split; [done |]. split; [by right | done].
Qed.

(** *** Messages that stop at the gate *)

(** X7. A message that stops at the gate, because the gate is closed
    or because evaluating it raised, makes the bot send nothing, request
    nothing and start no timer, and every user's cache, cooldown and
    interaction record read as before. *)
Theorem gate_stop_is_silent message w st :
  let r := on_message settings bot_user_id message w st in
  outcome r = NotAdmitted ∨ outcome r = Raised AttributeError →
  trace r = [] ∧
  (∀ v, cache_read v (state r) = cache_read v st) ∧
  (∀ v, is_on_cooldown v (state r) = is_on_cooldown v st) ∧
  (∀ v, interaction_get v (state r) = interaction_get v st) ∧
  sleeping (state r) = sleeping st.
Proof.
  intros r Hout. apply stopped_at_gate in Hout.
  by destruct (on_message_not_admitted settings bot_user_id message w st Hout)
    as (Htr & Hq & _).
Qed.

(** X9. A human's message with no mention and no reply reference, from
    a user with no entry in [user_last_interaction], is not admitted
    whatever the clock says, and the lookup leaves the default record
    under the user's key. *)
Theorem stranger_is_not_admitted message w st :
  let u := author_id message in
  let r := on_message settings bot_user_id message w st in
  author_bot message = false →
  mentions_bot message = false →
  reference message = None →
  user_last_interaction st !! u = None →
  outcome r = NotAdmitted ∧
  user_last_interaction (state r) !! u = Some never_interacted.
Proof.
  intros u r Hbot Hmention Href Hnew. subst r.
  assert (Hreplied : replied_to_bot bot_user_id message = Some false)
    by (unfold replied_to_bot; by rewrite Href).
  rewrite (on_message_gate settings bot_user_id message w st Hbot false Hreplied).
  assert (Hclosed : gate_open message w st false = false).
  { unfold gate_open, interaction_get. fold u. rewrite Hnew, Hmention.
    unfold same_channel. cbn [default from_option id orb never_interacted channel].
    rewrite bool_decide_eq_false_2 by done.
    apply andb_false_r. }
  rewrite Hclosed. simpl. split; [done |].
  unfold defaultdict_get. fold u. rewrite Hnew. simpl. apply lookup_insert_eq.
Qed.

(** *** Continuing a conversation *)

(** X10. After a handler run that got past the gate and returned, a
    later message of the same user with no mention and no reply
    reference gets past the gate exactly when it comes at most 120
    seconds after the end of that run and in the same channel. *)
Theorem follow_up_continues message w st follow w' :
  let r := on_message settings bot_user_id message w st in
  admitted bot_user_id message w st →
  returned r →
  author_id follow = author_id message →
  author_bot follow = false →
  mentions_bot follow = false →
  reference follow = None →
  outcome (deliver settings bot_user_id follow w' (state r)) ≠ NotAdmitted
  ↔ (utcnow_gate w' - utcnow_done w ≤ seconds 120
     ∧ channel_id follow = channel_id message).
Proof.
  intros r Hadm Hret Hsame Hbot Hmention Href. unfold deliver.
  assert (Hreplied : replied_to_bot bot_user_id follow = Some false)
    by (unfold replied_to_bot; by rewrite Href).
  rewrite (gate_closed_iff follow w' _ false Hbot Hreplied).
  unfold gate_open. rewrite run_timers_interaction, Hsame.
  subst r. rewrite (returned_run_records message w st Hadm Hret).
  rewrite decide_True by done. rewrite Hmention. simpl.
  unfold within_timeframe, same_channel. simpl.
  rewrite not_false_iff_true, andb_true_iff, Z.leb_le, bool_decide_eq_true.
  split.
  - intros [Hle [= Hch]]. done.
  - intros [Hle Hch]. by rewrite Hch.
Qed.

(** *** What a handler run asks and sends *)

(** X11. A handler run requests a completion exactly when the message
    gets past the gate, its author is not on cooldown and the system
    message file can be read. *)
Theorem completion_requested_iff message w st :
  (∃ model messages,
     ChatCompletion model messages
       ∈ trace (on_message settings bot_user_id message w st))
  ↔ (admitted bot_user_id message w st
     ∧ is_on_cooldown (author_id message) st = false
     ∧ is_Some (system_message settings (files w))).
Proof.
  split.
  - intros (model & messages & Hin).
    destruct (requested_messages message w st model messages Hin)
      as (Hadm & Hfree & sys & Hsys & _).
    by rewrite Hsys.
  - intros (Hadm & Hfree & Hsome).
    destruct (admitted_trace message w st Hadm)
      as [(_ & Hcd & _) | [(_ & _ & Hnone & _) | (sys & _ & Hsys & Hrest)]].
    + congruence.
    + rewrite Hnone in Hsome. by destruct Hsome.
    + cbv zeta in Hrest. eexists _, _.
      destruct Hrest as [(e & _ & _ & ->) | [(_ & _ & ->) | [(_ & _ & ->)
                         | (ai & _ & [(_ & _ & _ & ->) | (_ & ->)])]]];
        apply list_elem_of_further, list_elem_of_here.
Qed.

(** X12. Whatever a handler run sends, and the typing task it starts,
    go to the channel of the message. *)
Theorem sends_stay_in_channel message w st :
  let r := on_message settings bot_user_id message w st in
  (∀ ch text, Send ch text ∈ trace r → ch = channel_id message) ∧
  (∀ ch text, SendLarge ch text ∈ trace r → ch = channel_id message) ∧
  (∀ ch, KeepTyping ch ∈ trace r → ch = channel_id message).
Proof.
  intros r. subst r.
  destruct (admitted_dec bot_user_id message w st) as [Hadm | Hnot].
  2:{ destruct (on_message_not_admitted settings bot_user_id message w st Hnot)
        as (-> & _).
      repeat split; intros; by apply elem_of_nil in H. }
  destruct (admitted_trace message w st Hadm)
    as [(_ & _ & ->) | [(_ & _ & _ & ->) | (sys & _ & _ & Hrest)]].
  - repeat split; intros ? **; in_trace H; by injection H.
  - repeat split; intros ? **; in_trace H; by injection H.
  - cbv zeta in Hrest.
    destruct Hrest as [(e & _ & _ & ->) | [(_ & _ & ->) | [(_ & _ & ->)
                       | (ai & _ & [(_ & _ & _ & ->) | (_ & ->)])]]];
      repeat split; intros ? **; in_trace H; by injection H.
Qed.

(** X13. The text relayed with [send_large_message] is the reply that
    the completion call returned for the prompt of this message. *)
Theorem relayed_text_is_the_reply message w st ch text :
  SendLarge ch text ∈ trace (on_message settings bot_user_id message w st) →
  ∃ sys,
    system_message settings (files w) = Some sys ∧
    create w (openai_model settings)
      (build_messages sys (cache_read (author_id message) st) (content message))
    = Reply text.
Proof.
  intros Hin.
  destruct (admitted_dec bot_user_id message w st) as [Hadm | Hnot].
  2:{ destruct (on_message_not_admitted settings bot_user_id message w st Hnot)
        as (Htr & _).
      rewrite Htr in Hin. by apply elem_of_nil in Hin. }
  destruct (admitted_trace message w st Hadm)
    as [(_ & _ & Htr) | [(_ & _ & _ & Htr) | (sys & _ & Hsys & Hrest)]].
  - rewrite Htr in Hin. in_trace Hin.
  - rewrite Htr in Hin. in_trace Hin.
  - exists sys. split; [done |]. cbv zeta in Hrest.
    destruct Hrest as [(e & _ & _ & Htr) | [(_ & _ & Htr) | [(_ & _ & Htr)
                       | (ai & Hc & [(_ & _ & _ & Htr) | (_ & Htr)])]]];
      rewrite Htr in Hin; in_trace Hin; by injection Hin as _ <-.
Qed.

(** X14. When the handler returns, the typing task it started, if any,
    was started first and cancelled afterwards. *)
Theorem typing_task_is_cancelled message w st ch :
  let r := on_message settings bot_user_id message w st in
  returned r →
  KeepTyping ch ∈ trace r →
  ∃ tr, trace r = KeepTyping ch :: tr ∧ CancelTyping ∈ tr.
Proof.
  intros r Hret Hin. subst r. unfold returned in Hret.
  destruct (admitted_dec bot_user_id message w st) as [Hadm | Hnot].
  2:{ destruct (on_message_not_admitted settings bot_user_id message w st Hnot)
        as (Htr & _).
      rewrite Htr in Hin. by apply elem_of_nil in Hin. }
  destruct (admitted_trace message w st Hadm)
    as [(_ & _ & Htr) | [(Ho & _) | (sys & _ & _ & Hrest)]].
  - rewrite Htr in Hin. in_trace Hin.
  - by destruct (Hret OSError).
  - cbv zeta in Hrest.
    destruct Hrest as [(e & _ & _ & Htr) | [(_ & _ & Htr) | [(_ & _ & Htr)
                       | (ai & _ & [(_ & _ & _ & Htr) | (_ & Htr)])]]];
      rewrite Htr in Hin |- *; in_trace Hin; injection Hin as ->;
      eexists; (split; [reflexivity |]);
      apply list_elem_of_further, list_elem_of_here.
Qed.

(** X15. When the handler ends in [except Exception], no notice goes
    to the user: nothing is sent with [channel.send]. *)
Theorem unexpected_error_is_silent message w st ch text :
  let r := on_message settings bot_user_id message w st in
  outcome r = Unexpected →
  Send ch text ∉ trace r.
Proof.
  intros r Hout Hin. subst r.
  destruct (admitted_dec bot_user_id message w st) as [Hadm | Hnot].
  2:{ destruct (on_message_not_admitted settings bot_user_id message w st Hnot)
        as (Htr & _).
      rewrite Htr in Hin. by apply elem_of_nil in Hin. }
  destruct (admitted_trace message w st Hadm)
    as [(Ho & _) | [(Ho & _) | (sys & _ & _ & Hrest)]];
    [congruence | congruence |].
  cbv zeta in Hrest.
  destruct Hrest as [(e & _ & [Ho | Ho] & Htr) | [(_ & _ & Htr) | [(_ & _ & Htr)
                     | (ai & _ & [(_ & _ & _ & Htr) | (Ho & Htr)])]]];
    try congruence; rewrite Htr in Hin; in_trace Hin.
Qed.


(** *** Successful exchanges *)


(** *** Remembering the conversation *)

(** X24. After a successful exchange, the next completion requested for
    the same user carries the conversation: the prompt is the system
    turn, then what the exchange kept of the cache it found (all of it
    when it held fewer than [max_cache] turns, all but its oldest turn
    otherwise), then the user turn and the assistant turn just stored,
    then the new message. *)
Theorem next_prompt_recalls_exchange message w st next w' model messages :
  let u := author_id message in
  let r := on_message settings bot_user_id message w st in
  outcome r = Committed →
  author_id next = u →
  ChatCompletion model messages
    ∈ trace (deliver settings bot_user_id next w' (state r)) →
  ∃ sys sys' ai kept,
    system_message settings (files w) = Some sys ∧
    create w (openai_model settings)
      (build_messages sys (cache_read u st) (content message)) = Reply ai ∧
    (if max_cache settings <=? Z.of_nat (length (cache_read u st))
     then ∃ oldest, cache_read u st = oldest :: kept
     else kept = cache_read u st) ∧
    system_message settings (files w') = Some sys' ∧
    model = openai_model settings ∧
    messages =
      build_messages sys'
        (kept ++ [("user", content message); ("assistant", ai)])
        (content next).
Proof.
  intros u r Hout Hsame Hin. unfold deliver in Hin.
  destruct (requested_messages next w' _ model messages Hin)
    as (_ & _ & sys' & Hsys' & -> & ->).
  destruct (committed_exchange settings bot_user_id message w st Hout)
    as (sys & ai & kept & Hsys & Hc & Hkept & Hcache).
  exists sys, sys', ai, kept.
  split; [done |]. split; [done |]. split; [done |].
  split; [done |]. split; [done |].
  rewrite run_timers_cache, Hsame. fold r in Hcache.
  by rewrite Hcache, decide_True.
Qed.

(** *** Invariants of serial runs *)

Lemma paired_drop_oldest oldest kept : paired (oldest :: kept) → paired kept.
Proof.
  intros (lead & pairs & Heq & [-> | [a ->]]).
  - destruct pairs as [| [q a] pairs]; [done |].
    injection Heq as _ ->.
    exists [("assistant", a)], pairs. split; [done |]. right. by exists a.
  - injection Heq as _ ->. exists [], pairs. split; [done | by left].
Qed.

Lemma paired_store kept q a :
  paired kept → paired (kept ++ [("user", q); ("assistant", a)]).
Proof.
  intros (lead & pairs & -> & Hlead).
  exists lead, (pairs ++ [(q, a)]). split; [| done].
  rewrite bind_app, <- app_assoc. done.
Qed.

(** X20. When the handlers run one after the other, every cache is a
    sequence of whole exchanges, a user turn followed by its assistant
    turn, possibly after one assistant turn whose user turn was
    evicted; roles are never anything but "user" and "assistant". *)
Theorem caches_hold_exchanges st u :
  serial settings bot_user_id st → paired (cache_read u st).
Proof.
  intros Hserial. revert u.
  induction Hserial as [fs st Hst | t st _ IH | message w st _ IH]; intros u.
  - unfold startup in Hst. destruct (fs !! _); [| done]. injection Hst as <-.
    exists [], []. split; [done | by left].
  - rewrite run_timers_cache. apply IH.
  - destruct (on_message_effect message w st)
      as [(_ & Hca & _) | (_ & _ & ai & kept & Hkept & Hca & _)];
      rewrite Hca; [apply IH |].
    case_decide as Hu; [| apply IH].
    apply paired_store.
    destruct (max_cache settings <=? _).
    + destruct Hkept as [oldest Hold].
      apply (paired_drop_oldest oldest). rewrite <- Hold. apply IH.
    + subst kept. apply IH.
Qed.

(** X19. With [max_cache] zero or negative, [popleft] fails on the
    empty deque of every first exchange: when the handlers run one
    after the other no turn is ever cached, no cooldown ever starts and
    no timer is ever created. *)
Theorem no_capacity_no_memory st :
  max_cache settings ≤ 0 →
  serial settings bot_user_id st →
  (∀ u, cache_read u st = []) ∧
  (∀ u, is_on_cooldown u st = false) ∧
  sleeping st = [].
Proof.
  intros Hmax Hserial.
  induction Hserial as [fs st Hst | t st _ IH | message w st _ IH].
  - unfold startup in Hst. destruct (fs !! _); [| done]. by injection Hst as <-.
  - destruct IH as (Hca & Hcd & Hsl).
    split; [intros u; by rewrite run_timers_cache |].
    split.
    + intros u. rewrite run_timers_cooldown, Hcd. by destruct (wakes _ _ _).
    + by rewrite run_timers_sleeping, Hsl.
  - destruct IH as (Hca & Hcd & Hsl).
    destruct (on_message_effect message w st)
      as [(_ & Hca' & Hcd' & Hsl') | (_ & _ & ai & kept & Hkept & _)].
    + split; [intros u; by rewrite Hca' |].
      split; [intros u; by rewrite Hcd' | congruence].
    + rewrite Hca in Hkept. change (Z.of_nat (length [])) with 0 in Hkept.
      assert ((max_cache settings <=? 0) = true) as Hfull by (by apply Z.leb_le).
      rewrite Hfull in Hkept. by destruct Hkept.
Qed.

Lemma cooldown_has_task st :
  serial settings bot_user_id st →
  ∀ u, is_on_cooldown u st = true → ∃ dl, (dl, u) ∈ sleeping st.
Proof.
  induction 1 as [fs st Hst | t st _ IH | message w st _ IH]; intros u Hon.
  - unfold startup in Hst. destruct (fs !! _); [| done]. by injection Hst as <-.
  - rewrite run_timers_cooldown in Hon.
    destruct (wakes t u (sleeping st)) eqn:Hw; [done |].
    destruct (IH u Hon) as [dl Hin]. exists dl.
    rewrite run_timers_sleeping. apply elem_of_bool_filter. split; [done |].
    unfold due. simpl. apply negb_true_iff, Z.leb_gt.
    destruct (Z.lt_ge_cases t dl) as [Hlt | Hge]; [done |].
    assert (wakes t u (sleeping st) = true); [| congruence].
    apply wakes_true. exists dl. split; [done | lia].
  - destruct (on_message_effect message w st)
      as [(_ & _ & Hcd & Hsl) | (_ & _ & ai & kept & _ & _ & Hcd & Hsl)];
      rewrite Hcd in Hon; rewrite Hsl.
    + by apply IH.
    + case_decide as Hu.
      * subst u. eexists. apply elem_of_app. right. apply list_elem_of_here.
      * destruct (IH u Hon) as [dl Hin]. exists dl. apply elem_of_app. by left.
Qed.

(** X21. When the handlers run one after the other, a user who is on
    cooldown has a timer that will end it: once the timers have run at
    or after its wake-up time, the user is no longer on cooldown. *)
Theorem cooldown_always_ends st u :
  serial settings bot_user_id st →
  is_on_cooldown u st = true →
  ∃ dl, (dl, u) ∈ sleeping st ∧
        ∀ t, dl ≤ t → is_on_cooldown u (run_timers t st) = false.
Proof.
  intros Hserial Hon.
  destruct (cooldown_has_task st Hserial u Hon) as [dl Hin].
  exists dl. split; [done |]. intros t Hle.
  rewrite run_timers_cooldown.
  assert (wakes t u (sleeping st) = true) as ->; [| done].
  apply wakes_true. by exists dl.
Qed.

(** X22. With [cooldown_time] zero and the handlers running one after
    the other, no user is ever on cooldown and no message ever gets the
    wait notice. *)
Theorem zero_cooldown_never_throttles message w st :
  cooldown_time settings = 0 →
  serial settings bot_user_id st →
  (∀ u, is_on_cooldown u st = false) ∧
  outcome (on_message settings bot_user_id message w st) ≠ Throttled.
Proof.
  intros Hzero Hserial.
  pose proof (serial_timers_inv settings bot_user_id st Hserial) as Hinv.
  unfold timers_inv in Hinv. rewrite decide_True in Hinv by done.
  split; [exact Hinv |]. intros Hout.
  destruct (admitted_dec bot_user_id message w st) as [Hadm | Hnot].
  2:{ destruct (on_message_not_admitted settings bot_user_id message w st Hnot)
        as (_ & _ & [H | [H | H]]); congruence. }
  destruct (admitted_trace message w st Hadm)
    as [(_ & Hcd & _) | [(Ho & _) | (sys & _ & _ & Hrest)]].
  - rewrite Hinv in Hcd. done.
  - congruence.
  - cbv zeta in Hrest.
    destruct Hrest as [(e & _ & [Ho | Ho] & _) | [(_ & Ho & _) | [(_ & Ho & _)
                       | (ai & _ & [(Ho & _) | (Ho & _)])]]];
      congruence.
Qed.

End Session.

(** *** Timers *)

(** X23. Running the timers only ever clears cooldowns, and only those
    of users with a task that is due: nobody is put on cooldown, a user
    without a due task keeps the cooldown state, and caches and
    interaction records are not touched. *)
Theorem timers_only_clear t st v :
  cache_read v (run_timers t st) = cache_read v st ∧
  interaction_get v (run_timers t st) = interaction_get v st ∧
  (is_on_cooldown v (run_timers t st) = true → is_on_cooldown v st = true) ∧
  ((∀ dl, (dl, v) ∈ sleeping st → t < dl) →
   is_on_cooldown v (run_timers t st) = is_on_cooldown v st) ∧
  (∀ task, task ∈ sleeping (run_timers t st) ↔ task ∈ sleeping st ∧ t < task.1).
Proof.
  split; [done |]. split; [done |].
  rewrite run_timers_cooldown. split; [| split].
  - by destruct (wakes t v (sleeping st)).
  - intros Hlate. destruct (wakes t v (sleeping st)) eqn:Hw; [| done].
    apply wakes_true in Hw as (dl & Hin & Hle). specialize (Hlate dl Hin). lia.
  - intros task. rewrite run_timers_sleeping, elem_of_bool_filter.
    unfold due. rewrite negb_true_iff, Z.leb_gt. done.
Qed.

(** ** Concrete runs of the further properties *)

Lemma split_message_joins_witness :
  0 < 3 ∧
  ∃ chunks, split_message "abcdefg" 3 = Some chunks ∧
            String.concat "" chunks = "abcdefg".
Proof. split; [lia |]. apply (split_message_joins "abcdefg" 3). lia. Defined.

Lemma split_message_chunk_sizes_witness :
  0 < 3 ∧
  split_message "abcdefg" 3 = Some ["abc"; "def"; "g"] ∧
  (∀ c, c ∈ ["abc"; "def"; "g"] → 1 ≤ Z.of_nat (String.length c) ≤ 3) ∧
  (∀ k c, ["abc"; "def"; "g"] !! k = Some c → (S k < 3)%nat →
          Z.of_nat (String.length c) = 3).
Proof.
  assert (Hpos : 0 < 3) by lia.
  assert (Hsplit : split_message "abcdefg" 3 = Some ["abc"; "def"; "g"])
    by reflexivity.
  split; [exact Hpos |]. split; [exact Hsplit |].
  exact (split_message_chunk_sizes "abcdefg" 3 _ Hpos Hsplit).
Defined.

Lemma split_message_count_witness :
  0 < 3 ∧
  split_message "abcdefg" 3 = Some ["abc"; "def"; "g"] ∧
  7 ≤ 3 * 3 < 7 + 3.
Proof.
  assert (Hpos : 0 < 3) by lia.
  assert (Hsplit : split_message "abcdefg" 3 = Some ["abc"; "def"; "g"])
    by reflexivity.
  split; [exact Hpos |]. split; [exact Hsplit |].
  exact (split_message_count "abcdefg" 3 _ Hpos Hsplit).
Defined.

Lemma split_message_short_witness :
  1 ≤ Z.of_nat (String.length "hello") ≤ 2000 ∧
  split_message "hello" 2000 = Some ["hello"].
Proof.
  assert (Hshort : 1 ≤ Z.of_nat (String.length "hello") ≤ 2000)
    by (vm_compute; split; discriminate).
  split; [exact Hshort |]. exact (split_message_short "hello" 2000 Hshort).
Defined.

Lemma other_users_untouched_witness :
  let r := on_message default_settings bot (mention "hi")
             (world_at 0 disk (Reply "yo")) fresh in
  8 ≠ author_id (mention "hi") ∧
  cache_read 8 (state r) = cache_read 8 fresh ∧
  is_on_cooldown 8 (state r) = is_on_cooldown 8 fresh ∧
  interaction_get 8 (state r) = interaction_get 8 fresh.
Proof.
  intros r.
  assert (Hv : 8 ≠ author_id (mention "hi")) by (vm_compute; discriminate).
  split; [exact Hv |].
  exact (other_users_untouched default_settings bot (mention "hi")
           (world_at 0 disk (Reply "yo")) fresh 8 Hv).
Defined.

Lemma gate_stop_is_silent_witness :
  let w := world_at 0 disk (Reply "yo") in
  let r := on_message default_settings bot (plain room "anyone?") w fresh in
  (outcome r = NotAdmitted ∨ outcome r = Raised AttributeError) ∧
  trace r = [] ∧
  (∀ v, cache_read v (state r) = cache_read v fresh) ∧
  (∀ v, is_on_cooldown v (state r) = is_on_cooldown v fresh) ∧
  (∀ v, interaction_get v (state r) = interaction_get v fresh) ∧
  sleeping (state r) = sleeping fresh.
Proof.
  intros w r.
  assert (Hout : outcome r = NotAdmitted ∨ outcome r = Raised AttributeError)
    by (left; vm_compute; reflexivity).
  split; [exact Hout |].
  exact (gate_stop_is_silent default_settings bot (plain room "anyone?") w fresh Hout).
Defined.

Lemma gate_admits_iff_witness :
  let w := world_at 100 disk (Reply "yo") in
  let message := plain room "still there?" in
  let last := interaction_get (author_id message) after_first_exchange in
  author_bot message = false ∧
  reference message ≠ Some None ∧
  (outcome (on_message default_settings bot message w after_first_exchange)
     ≠ NotAdmitted
   ↔ (mentions_bot message = true
      ∨ reference message = Some (Some bot)
      ∨ (utcnow_gate w - time last ≤ seconds 120
         ∧ channel last = Some (channel_id message)))).
Proof.
  intros w message last.
  assert (Hbot : author_bot message = false) by reflexivity.
  assert (Href : reference message ≠ Some None) by discriminate.
  split; [exact Hbot |]. split; [exact Href |].
  exact (gate_admits_iff default_settings bot message w after_first_exchange Hbot Href).
Defined.

Lemma stranger_is_not_admitted_witness :
  let w := world_at 0 disk (Reply "yo") in
  let message := plain room "anyone?" in
  let r := on_message default_settings bot message w fresh in
  author_bot message = false ∧
  mentions_bot message = false ∧
  reference message = None ∧
  user_last_interaction fresh !! author_id message = None ∧
  outcome r = NotAdmitted ∧
  user_last_interaction (state r) !! author_id message = Some never_interacted.
Proof.
  intros w message r.
  assert (Hnew : user_last_interaction fresh !! author_id message = None)
    by (vm_compute; reflexivity).
  split; [reflexivity |]. split; [reflexivity |]. split; [reflexivity |].
  split; [exact Hnew |].
  exact (stranger_is_not_admitted default_settings bot message w fresh
           eq_refl eq_refl eq_refl Hnew).
Defined.

Lemma follow_up_continues_witness :
  let w := world_at 0 disk (Reply "yo") in
  let w' := world_at 100 disk (Reply "sure") in
  let follow := plain room "and then?" in
  let r := on_message default_settings bot (mention "hi") w fresh in
  admitted bot (mention "hi") w fresh ∧
  returned r ∧
  author_id follow = author_id (mention "hi") ∧
  author_bot follow = false ∧
  mentions_bot follow = false ∧
  reference follow = None ∧
  (outcome (deliver default_settings bot follow w' (state r)) ≠ NotAdmitted
   ↔ (utcnow_gate w' - utcnow_done w ≤ seconds 120
      ∧ channel_id follow = channel_id (mention "hi"))).
Proof.
  intros w w' follow r.
  assert (Hadm : admitted bot (mention "hi") w fresh).
  { split; [reflexivity |]. exists false. split; reflexivity. }
  assert (Hret : returned r) by (intros e; vm_compute; discriminate).
  split; [exact Hadm |]. split; [exact Hret |].
  split; [reflexivity |]. split; [reflexivity |].
  split; [reflexivity |]. split; [reflexivity |].
  exact (follow_up_continues default_settings bot (mention "hi") w fresh follow w'
           Hadm Hret eq_refl eq_refl eq_refl eq_refl).
Defined.

Lemma relayed_text_is_the_reply_witness :
  let w := world_at 0 disk (Reply "yo") in
  let r := on_message default_settings bot (mention "hi") w fresh in
  SendLarge room "yo" ∈ trace r ∧
  ∃ sys,
    system_message default_settings (files w) = Some sys ∧
    create w (openai_model default_settings)
      (build_messages sys (cache_read user fresh) "hi") = Reply "yo".
Proof.
  intros w r.
  assert (Hin : SendLarge room "yo" ∈ trace r).
  { apply list_elem_of_In. vm_compute. do 3 right. left. reflexivity. }
  split; [exact Hin |].
  exact (relayed_text_is_the_reply default_settings bot (mention "hi") w fresh
           room "yo" Hin).
Defined.

Lemma typing_task_is_cancelled_witness :
  let w := world_at 0 disk Malformed in
  let r := on_message default_settings bot (mention "hi") w fresh in
  returned r ∧
  KeepTyping room ∈ trace r ∧
  ∃ tr, trace r = KeepTyping room :: tr ∧ CancelTyping ∈ tr.
Proof.
  intros w r.
  assert (Hret : returned r) by (intros e; vm_compute; discriminate).
  assert (Hin : KeepTyping room ∈ trace r).
  { apply list_elem_of_In. vm_compute. left. reflexivity. }
  split; [exact Hret |]. split; [exact Hin |].
  exact (typing_task_is_cancelled default_settings bot (mention "hi") w fresh
           room Hret Hin).
Defined.

Lemma unexpected_error_is_silent_witness :
  let w := world_at 0 disk OtherError in
  let r := on_message default_settings bot (mention "hi") w fresh in
  outcome r = Unexpected ∧
  Send room "An error occurred: " ∉ trace r.
Proof.
  intros w r.
  assert (Hout : outcome r = Unexpected) by (vm_compute; reflexivity).
  split; [exact Hout |].
  exact (unexpected_error_is_silent default_settings bot (mention "hi") w fresh
           room "An error occurred: " Hout).
Defined.



Lemma successful_exchange_grows_witness :
  let st := run default_settings bot (exchanges 3) fresh in
  let w := world_at 30 disk (Reply "sure") in
  let st' := run_timers (utcnow_gate w) st in
  let r := on_message default_settings bot (mention "more") w st' in
  outcome r = Committed ∧
  Z.of_nat (length (cache_read user (state r))) =
  Z.of_nat (length (cache_read user st'))
  + (if max_cache default_settings <=? Z.of_nat (length (cache_read user st'))
     then 1 else 2).
Proof.
  intros st w st' r.
  assert (Hout : outcome r = Committed) by (vm_compute; reflexivity).
  split; [exact Hout |].
  exact (successful_exchange_grows default_settings bot (mention "more") w st' Hout).
Defined.

Lemma no_capacity_no_memory_witness :
  let st := state (on_message no_capacity bot (mention "hi")
                     (world_at 0 disk (Reply "yo")) fresh) in
  max_cache no_capacity ≤ 0 ∧
  serial no_capacity bot st ∧
  (∀ u, cache_read u st = []) ∧
  (∀ u, is_on_cooldown u st = false) ∧
  sleeping st = [].
Proof.
  intros st.
  assert (Hmax : max_cache no_capacity ≤ 0) by (vm_compute; discriminate).
  assert (Hserial : serial no_capacity bot st).
  { apply serial_message. apply (serial_startup no_capacity bot disk). reflexivity. }
  split; [exact Hmax |]. split; [exact Hserial |].
  exact (no_capacity_no_memory no_capacity bot st Hmax Hserial).
Defined.

Lemma caches_hold_exchanges_witness :
  serial default_settings bot after_first_exchange ∧
  paired (cache_read user after_first_exchange).
Proof.
  assert (Hserial : serial default_settings bot after_first_exchange).
  { apply serial_message. apply (serial_startup default_settings bot disk). reflexivity. }
  split; [exact Hserial |].
  exact (caches_hold_exchanges default_settings bot after_first_exchange user Hserial).
Defined.

Lemma cooldown_always_ends_witness :
  serial default_settings bot after_first_exchange ∧
  is_on_cooldown user after_first_exchange = true ∧
  ∃ dl, (dl, user) ∈ sleeping after_first_exchange ∧
        ∀ t, dl ≤ t → is_on_cooldown user (run_timers t after_first_exchange) = false.
Proof.
  assert (Hserial : serial default_settings bot after_first_exchange).
  { apply serial_message. apply (serial_startup default_settings bot disk). reflexivity. }
  assert (Hon : is_on_cooldown user after_first_exchange = true)
    by (vm_compute; reflexivity).
  split; [exact Hserial |]. split; [exact Hon |].
  exact (cooldown_always_ends default_settings bot after_first_exchange user
           Hserial Hon).
Defined.

Lemma zero_cooldown_never_throttles_witness :
  let st := state (on_message no_cooldown bot (mention "hi")
                     (world_at 0 disk (Reply "yo")) fresh) in
  let w := world_at 1 disk (Reply "sure") in
  cooldown_time no_cooldown = 0 ∧
  serial no_cooldown bot st ∧
  (∀ u, is_on_cooldown u st = false) ∧
  outcome (on_message no_cooldown bot (mention "again") w st) ≠ Throttled.
Proof.
  intros st w.
  assert (Hserial : serial no_cooldown bot st).
  { apply serial_message. apply (serial_startup no_cooldown bot disk). reflexivity. }
  split; [reflexivity |]. split; [exact Hserial |].
  exact (zero_cooldown_never_throttles no_cooldown bot (mention "again") w st
           eq_refl Hserial).
Defined.

Lemma next_prompt_recalls_exchange_witness :
  let w := world_at 0 disk (Reply "yo") in
  let w' := world_at 10 disk (Reply "sure") in
  let r := on_message default_settings bot (mention "hi") w fresh in
  let request :=
    [{| role := "system"; msg_content := "Be kind." |};
     {| role := "user"; msg_content := "hi" |};
     {| role := "assistant"; msg_content := "yo" |};
     {| role := "user"; msg_content := "and now?" |}] in
  outcome r = Committed ∧
  author_id (mention "and now?") = author_id (mention "hi") ∧
  ChatCompletion "gpt-3.5-turbo-16k" request
    ∈ trace (deliver default_settings bot (mention "and now?") w' (state r)) ∧
  ∃ sys sys' ai kept,
    system_message default_settings (files w) = Some sys ∧
    create w (openai_model default_settings)
      (build_messages sys (cache_read user fresh) "hi") = Reply ai ∧
    (if max_cache default_settings <=? Z.of_nat (length (cache_read user fresh))
     then ∃ oldest, cache_read user fresh = oldest :: kept
     else kept = cache_read user fresh) ∧
    system_message default_settings (files w') = Some sys' ∧
    "gpt-3.5-turbo-16k" = openai_model default_settings ∧
    request = build_messages sys' (kept ++ [("user", "hi"); ("assistant", ai)])
                "and now?".
Proof.
  intros w w' r request.
  assert (Hout : outcome r = Committed) by (vm_compute; reflexivity).
  assert (Hin : ChatCompletion "gpt-3.5-turbo-16k" request
                  ∈ trace (deliver default_settings bot (mention "and now?") w' (state r))).
  { apply list_elem_of_In. vm_compute. right. left. reflexivity. }
  split; [exact Hout |]. split; [reflexivity |]. split; [exact Hin |].
  exact (next_prompt_recalls_exchange default_settings bot (mention "hi") w fresh
           (mention "and now?") w' _ _ Hout eq_refl Hin).
Defined.
